(** * bound: object binding (src/bound/base.ts, src/bound/simple.ts)

    A shallow embedding of the two classes [BaseBound] and [SimpleBound]
    over a small model of the JavaScript object heap: objects are ordered
    lists of data properties with their attributes, every operation runs in
    a state-and-exception monad over the heap and the global [config.debug]
    flag, and a thrown exception leaves the mutations made so far in place.

    Not modelled: arrays, accessor properties, proxies, [toJSON], symbol
    keys, non-extensible objects, numbers other than integers, and the
    rule that integer-like keys are enumerated before the others. *)

From Stdlib Require Import ZArith Ascii String List Lia DecimalString.
From stdpp Require Import base list.
Import ListNotations.
Local Open Scope string_scope.
Local Open Scope list_scope.

(** ** Values, properties, objects *)

(** Heap locations. *)
Abbreviation loc := nat.

Inductive value :=
| VUndef
| VNull
| VBool (b : bool)
| VNum (n : Z)
| VStr (s : string)
| VObj (l : loc).

(** A data property with its three attributes. *)
Record prop := mkProp {
  p_value : value;
  p_writable : bool;
  p_enumerable : bool;
  p_configurable : bool
}.

(** What an object is an instance of.  [CBaseBound] stands for an instance
    of a subclass of the abstract [BaseBound] other than [SimpleBound]. *)
Inductive cls := CObject | CFunction | CBaseBound | CSimpleBound | CBinding.

(** Modelled from the spec: the state of a [Binding] instance, whose source
    (the module [binding]) is not part of src/: "current value", "an
    ordered collection of master bindings, each a pair (target object
    reference, key name)", "a two-way flag". *)
Record binding := mkBinding {
  b_twoWay : bool;
  b_value : value;
  b_masters : list (value * string)
}.

(** Own properties are kept in creation order, the order [for ... in] and
    [JSON.stringify] visit them in. *)
Record object := mkObject {
  o_class : cls;
  o_props : list (string * prop);
  o_slots : option binding
}.

(** The heap is indexed by location.  Modelled from the spec: the module
    [config] is not part of src/; it "exposes a boolean debug flag", the
    one field the code reads. *)
Record world := mkWorld {
  heap : list object;
  debug : bool
}.

Definition value_eqb (a b : value) : bool :=
  match a, b with
  | VUndef, VUndef | VNull, VNull => true
  | VBool x, VBool y => Bool.eqb x y
  | VNum x, VNum y => Z.eqb x y
  | VStr x, VStr y => String.eqb x y
  | VObj x, VObj y => Nat.eqb x y
  | _, _ => false
  end.

(** ** Exceptions and the monad *)

Inductive type_error :=
| ReadOfNullish (key : string)      (* reading a property of undefined or null *)
| WriteOfNullish (key : string)     (* assigning a property of undefined or null *)
| WriteOnPrimitive (key : string)   (* strict mode: assigning a property of a primitive *)
| ReadOnlyProperty (key : string)   (* strict mode: assigning a non-writable property *)
| CannotRedefine (key : string)     (* Object.defineProperty on a non-configurable property *)
| DefineOnNonObject                 (* Object.defineProperty on a non-object *)
| NotAFunction (key : string)       (* calling a method the receiver does not have *)
| CircularStructure.                (* JSON.stringify on a cyclic object *)

(** Modelled from the spec: [BoundError], whose module is not part of
    src/, is "a simple labeled-exception constructor" taking a message. *)
Inductive exn :=
| BoundError (msg : string)
| TypeError (cause : type_error)
| SyntaxError.

Inductive outcome (A : Type) :=
| Ok (a : A)
| Throw (e : exn)
| OutOfFuel.
Arguments Ok {A} a.
Arguments Throw {A} e.
Arguments OutOfFuel {A}.

Definition M (A : Type) : Type := world -> outcome A * world.

Definition run {A} (m : M A) (w : world) : outcome A * world := m w.

#[global] Instance M_ret : MRet M := fun A a w => (Ok a, w).

#[global] Instance M_bind : MBind M := fun A B f m w =>
  match m w with
  | (Ok a, w') => f a w'
  | (Throw e, w') => (Throw e, w')
  | (OutOfFuel, w') => (OutOfFuel, w')
  end.

Definition throw {A} (e : exn) : M A := fun w => (Throw e, w).
Definition out_of_fuel {A} : M A := fun w => (OutOfFuel, w).
Definition gets {A} (f : world -> A) : M A := fun w => (Ok (f w), w).

Fixpoint for_each {A} (xs : list A) (body : A -> M unit) : M unit :=
  match xs with
  | [] => mret tt
  | x :: r => body x;; for_each r body
  end.

(** ** Property tables *)

Fixpoint assoc_get (k : string) (ps : list (string * prop)) : option prop :=
  match ps with
  | [] => None
  | (k', p) :: r => if String.eqb k k' then Some p else assoc_get k r
  end.

(** Replace in place when the key exists, append otherwise. *)
Fixpoint assoc_set (k : string) (p : prop) (ps : list (string * prop))
  : list (string * prop) :=
  match ps with
  | [] => [(k, p)]
  | (k', p') :: r =>
      if String.eqb k k' then (k', p) :: r else (k', p') :: assoc_set k p r
  end.

Definition data_prop (v : value) : prop := mkProp v true true true.

Definition empty_object : object := mkObject CObject [] None.

(** A location outside the heap reads as an empty plain object; no
    operation below creates such a location. *)
Definition obj_at (w : world) (l : loc) : object :=
  default empty_object (heap w !! l).

Definition own_prop (w : world) (v : value) (k : string) : option prop :=
  match v with
  | VObj l => assoc_get k (o_props (obj_at w l))
  | _ => None
  end.

Definition enumerable_keys (ps : list (string * prop)) : list string :=
  map fst (List.filter (fun kp => p_enumerable (snd kp)) ps).

Definition string_of_nat (n : nat) : string :=
  NilZero.string_of_uint (Nat.to_uint n).

(** ** Primitive operations of the language *)

Definition alloc (o : object) : M value := fun w =>
  (Ok (VObj (length (heap w))), mkWorld (heap w ++ [o]) (debug w)).

(** [{ k1: v1, ... }] *)
Definition object_literal (fields : list (string * value)) : M value :=
  alloc (mkObject CObject (map (fun kv => (fst kv, data_prop (snd kv))) fields) None).

Definition class_of (w : world) (v : value) : option cls :=
  match v with
  | VObj l => Some (o_class (obj_at w l))
  | _ => None
  end.

Definition typeof_in (w : world) (v : value) : string :=
  match v with
  | VUndef => "undefined"
  | VNull => "object"
  | VBool _ => "boolean"
  | VNum _ => "number"
  | VStr _ => "string"
  | VObj l => match o_class (obj_at w l) with
              | CFunction => "function"
              | _ => "object"
              end
  end.

Definition typeof (v : value) : M string := gets (fun w => typeof_in w v).

(** [v instanceof BaseBound] *)
Definition instanceof_BaseBound_in (w : world) (v : value) : bool :=
  match class_of w v with
  | Some CBaseBound | Some CSimpleBound => true
  | _ => false
  end.

Definition instanceof_BaseBound (v : value) : M bool :=
  gets (fun w => instanceof_BaseBound_in w v).

(** [undefined] and [null], the values without properties. *)
Definition nullish (v : value) : bool :=
  match v with
  | VUndef | VNull => true
  | _ => false
  end.

(** ToBoolean *)
Definition truthy (v : value) : bool :=
  match v with
  | VUndef | VNull => false
  | VBool b => b
  | VNum n => negb (Z.eqb n 0)
  | VStr s => negb (String.eqb s "")
  | VObj _ => true
  end.

(** The characters of a string are its index properties. *)
Fixpoint string_index (s : string) (i : nat) (k : string) : option value :=
  match s with
  | EmptyString => None
  | String c r =>
      if String.eqb k (string_of_nat i) then Some (VStr (String c EmptyString))
      else string_index r (S i) k
  end.

(** [v.k] and [v[k]].  The prototypes of the classes hold methods only,
    and no method name is read as a property by the code, so the lookup
    stops at the own properties. *)
Definition get_prop_in (w : world) (v : value) (k : string) : outcome value :=
  match v with
  | VUndef | VNull => Throw (TypeError (ReadOfNullish k))
  | VObj l =>
      match assoc_get k (o_props (obj_at w l)) with
      | Some p => Ok (p_value p)
      | None => Ok VUndef
      end
  | VStr s =>
      if String.eqb k "length" then Ok (VNum (Z.of_nat (String.length s)))
      else Ok (default VUndef (string_index s 0 k))
  | VBool _ | VNum _ => Ok VUndef
  end.

Definition get_prop (v : value) (k : string) : M value :=
  fun w => (get_prop_in w v k, w).

Definition update_props (l : loc) (ps : list (string * prop)) : M unit := fun w =>
  let o := obj_at w l in
  (Ok tt, mkWorld (<[l := mkObject (o_class o) ps (o_slots o)]> (heap w)) (debug w)).

(** [v[k] = x] in strict mode. *)
Definition set_prop (v : value) (k : string) (x : value) : M unit :=
  match v with
  | VUndef | VNull => throw (TypeError (WriteOfNullish k))
  | VBool _ | VNum _ | VStr _ => throw (TypeError (WriteOnPrimitive k))
  | VObj l =>
      ps ← gets (fun w => o_props (obj_at w l));
      match assoc_get k ps with
      | Some p =>
          if p_writable p
          then update_props l
                 (assoc_set k (mkProp x true (p_enumerable p) (p_configurable p)) ps)
          else throw (TypeError (ReadOnlyProperty k))
      | None => update_props l (assoc_set k (data_prop x) ps)
      end
  end.

(** A property descriptor as passed to [Object.defineProperty]: an absent
    field is [None]. *)
Record descriptor := mkDesc {
  d_value : option value;
  d_writable : option bool;
  d_enumerable : option bool;
  d_configurable : option bool
}.

Definition opt_differs {A} (eqb : A -> A -> bool) (d : option A) (cur : A) : bool :=
  match d with
  | Some x => negb (eqb x cur)
  | None => false
  end.

(** [Object.defineProperty(v, k, d)] for data descriptors
    (ValidateAndApplyPropertyDescriptor): on a new property the absent
    fields default to [undefined] and [false]; on an existing property only
    the fields present in [d] are changed. *)
Definition define_property (v : value) (k : string) (d : descriptor) : M unit :=
  match v with
  | VObj l =>
      ps ← gets (fun w => o_props (obj_at w l));
      match assoc_get k ps with
      | None =>
          update_props l
            (assoc_set k (mkProp (default VUndef (d_value d))
                                 (default false (d_writable d))
                                 (default false (d_enumerable d))
                                 (default false (d_configurable d))) ps)
      | Some p =>
          let rejected :=
            negb (p_configurable p) &&
            (opt_differs Bool.eqb (d_configurable d) false
             || opt_differs Bool.eqb (d_enumerable d) (p_enumerable p)
             || (negb (p_writable p) &&
                 (opt_differs Bool.eqb (d_writable d) false
                  || opt_differs value_eqb (d_value d) (p_value p)))) in
          if rejected then throw (TypeError (CannotRedefine k))
          else update_props l
                 (assoc_set k (mkProp (default (p_value p) (d_value d))
                                      (default (p_writable p) (d_writable d))
                                      (default (p_enumerable p) (d_enumerable d))
                                      (default (p_configurable p) (d_configurable d))) ps)
      end
  | _ => throw (TypeError DefineOnNonObject)
  end.

(** The keys a [for (const key in v)] loop visits. *)
Definition for_in_keys (v : value) : M (list string) := gets (fun w =>
  match v with
  | VObj l => enumerable_keys (o_props (obj_at w l))
  | VStr s => map string_of_nat (seq 0 (String.length s))
  | _ => []
  end).

(** ** BaseBound (src/bound/base.ts) *)

Module BaseBound.

Definition dquote : string := String "034"%char EmptyString.

Definition msg_only_objects : string :=
  ("Only object binds are allowed. For property and pure value bindings use Binding from "
   ++ dquote ++ "bound/binding" ++ dquote ++ ".")%string.

Definition msg_rebind : string := "Cannot rebind a bound object.".

Definition msg_not_implemented : string := "Method not implemented.".

(** [static isBound(obj)]:
    [!!obj.__bound__ && (obj.__bound__ instanceof BaseBound)].
    [a && b] is [a] when [a] is falsy and [b] otherwise. *)
Definition isBound (obj : value) : M value :=
  x ← get_prop obj "__bound__";
  let a := VBool (negb (negb (truthy x))) in
  if truthy a then
    y ← get_prop obj "__bound__";
    i ← instanceof_BaseBound y;
    mret (VBool i)
  else mret a.

(** The constructor, run on the freshly allocated [this].  The parameter
    property [plugins] and the two field initialisers come first, then the
    body. *)
Definition constructor (this proto plugins : value) : M unit :=
  set_prop this "plugins" plugins;;
  storage ← object_literal [];
  set_prop this "storage" storage;;
  boundObject ← object_literal [("__bound__", this)];
  set_prop this "boundObject" boundObject;;
  (* Make __bound__ non-enumerable. *)
  bo ← get_prop this "boundObject";
  define_property bo "__bound__" (mkDesc (Some this) (Some true) None None);;
  dbg ← gets debug;
  ty ← typeof proto;
  (if dbg && negb (String.eqb ty "object")
   then throw (BoundError msg_only_objects) else mret tt);;
  inst ← instanceof_BaseBound proto;
  rebind ← (if dbg && inst then mret true
            else r ← isBound proto; mret (truthy r));
  if (rebind : bool) then throw (BoundError msg_rebind) else mret tt.

(** [new C(proto, plugins)] for a subclass [C] whose constructor only
    forwards its arguments to [super]. *)
Definition new (proto plugins : value) : M value :=
  this ← alloc (mkObject CBaseBound [] None);
  constructor this proto plugins;;
  mret this.

(** [bindAndMap(obj, mapToOriginal, twoWay)] *)
Definition bindAndMap (this obj mapToOriginal twoWay : value) : M value :=
  throw (BoundError msg_not_implemented).

End BaseBound.

(** ** Binding (the module [binding] the two classes import) *)

Module Binding.

(** The internal state of the Binding instance [b]; a receiver that is
    not a Binding has no method [method]. *)
Definition slots_of (method : string) (b : value) : M (loc * binding) :=
  match b with
  | VUndef | VNull => throw (TypeError (ReadOfNullish method))
  | VObj l =>
      o ← gets (fun w => obj_at w l);
      match o_slots o with
      | Some st => mret (l, st)
      | None => throw (TypeError (NotAFunction method))
      end
  | _ => throw (TypeError (NotAFunction method))
  end.

Definition put_slots (l : loc) (st : binding) : M unit := fun w =>
  let o := obj_at w l in
  (Ok tt, mkWorld (<[l := mkObject (o_class o) (o_props o) (Some st)]> (heap w)) (debug w)).

(** Modelled from the spec: the constructor of [Binding], whose source
    file is not part of src/.  "creates a binding with the two-way flag
    and initial value". *)
Definition new (twoWay : bool) (initialValue : value) : M value :=
  alloc (mkObject CBinding [] (Some (mkBinding twoWay initialValue []))).

(** Modelled from the spec: [addMasterBinding] of the missing [Binding]
    source.  "registers target[key] as a mirror of this binding's value;
    side effect: immediately sets target[key] to the binding's current
    value"; no duplicate detection. *)
Definition addMasterBinding (b target : value) (key : string) : M unit :=
  '(l, st) ← slots_of "addMasterBinding" b;
  set_prop target key (b_value st);;
  put_slots l (mkBinding (b_twoWay st) (b_value st) (b_masters st ++ [(target, key)])).

(** Modelled from the spec: the value setter of the missing [Binding]
    source.  "updates the internally tracked value and then, for every
    registered (target, key) pair, assigns the new value to target[key],
    in registration order". *)
Definition set (b : value) (v : value) : M unit :=
  '(l, st) ← slots_of "value" b;
  put_slots l (mkBinding (b_twoWay st) v (b_masters st));;
  for_each (b_masters st) (fun tk => set_prop (fst tk) (snd tk) v).

(** Modelled from the spec: the value getter of the missing [Binding]
    source.  "returns the internally tracked value; does not re-derive
    from any registered target". *)
Definition get (b : value) : M value :=
  '(l, st) ← slots_of "value" b;
  mret (b_value st).

End Binding.

(** ** JSON.parse(JSON.stringify(v)) *)

#[warnings="-register-all"]
Inductive json :=
| JNull
| JBool (b : bool)
| JNum (n : Z)
| JStr (s : string)
| JObject (fields : list (string * json)).

(** The fields of a serialised object: the enumerable properties in
    order, without those whose value serialises to [undefined]. *)
Fixpoint stringify_fields (serialise : value -> outcome (option json))
    (ps : list (string * prop)) : outcome (list (string * json)) :=
  match ps with
  | [] => Ok []
  | (k, p) :: r =>
      if p_enumerable p then
        match serialise (p_value p) with
        | Ok None => stringify_fields serialise r
        | Ok (Some j) =>
            match stringify_fields serialise r with
            | Ok fs => Ok ((k, j) :: fs)
            | Throw e => Throw e
            | OutOfFuel => OutOfFuel
            end
        | Throw e => Throw e
        | OutOfFuel => OutOfFuel
        end
      else stringify_fields serialise r
  end.

(** [JSON.stringify]: [Ok None] is the result [undefined] (for
    [undefined] and for functions); [stack] holds the objects being
    serialised, and meeting one of them again is the circular-structure
    error. *)
Fixpoint stringify (fuel : nat) (w : world) (stack : list loc) (v : value)
  : outcome (option json) :=
  match fuel with
  | 0 => OutOfFuel
  | S fuel' =>
      match v with
      | VUndef => Ok None
      | VNull => Ok (Some JNull)
      | VBool b => Ok (Some (JBool b))
      | VNum n => Ok (Some (JNum n))
      | VStr s => Ok (Some (JStr s))
      | VObj l =>
          let o := obj_at w l in
          match o_class o with
          | CFunction => Ok None
          | _ =>
              if existsb (Nat.eqb l) stack then Throw (TypeError CircularStructure)
              else
                match stringify_fields (stringify fuel' w (l :: stack)) (o_props o) with
                | Ok fs => Ok (Some (JObject fs))
                | Throw e => Throw e
                | OutOfFuel => OutOfFuel
                end
          end
      end
  end.

(** [JSON.parse] of a serialised value: fresh objects. *)
Fixpoint parse_fields (parse : json -> M value) (o : value)
    (fs : list (string * json)) : M unit :=
  match fs with
  | [] => mret tt
  | (k, j) :: r => v ← parse j; set_prop o k v;; parse_fields parse o r
  end.

Fixpoint parse (j : json) : M value :=
  match j with
  | JNull => mret VNull
  | JBool b => mret (VBool b)
  | JNum n => mret (VNum n)
  | JStr s => mret (VStr s)
  | JObject fs =>
      o ← object_literal [];
      parse_fields parse o fs;;
      mret o
  end.

(** No chain of distinct nested objects is longer than the heap, so the
    fuel below is never used up ([JSON_roundtrip_fuel]). *)
Definition JSON_roundtrip (v : value) : M value :=
  r ← gets (fun w => stringify (S (S (length (heap w)))) w [] v);
  match r with
  | Ok (Some j) => parse j
  | Ok None => throw SyntaxError      (* JSON.parse(undefined) *)
  | Throw e => throw e
  | OutOfFuel => out_of_fuel
  end.

(** ** SimpleBound (src/bound/simple.ts) *)

Module SimpleBound.

(** The statements of the constructor after the field initialiser, with
    [new_SimpleBound] the constructor call of the recursion. *)
Definition constructor_body (new_SimpleBound : value -> M value)
    (this obj : value) : M unit :=
  original ← JSON_roundtrip obj;
  keys ← for_in_keys original;
  for_each keys (fun key =>
    x ← get_prop original key;
    ty ← typeof x;
    if String.eqb ty "object" then
      bound ← new_SimpleBound x;
      (* this.bound[key] = bound.bound *)
      this_bound ← get_prop this "bound";
      bound_bound ← get_prop bound "bound";
      set_prop this_bound key bound_bound;;
      (* this.storage[key] = bound.storage *)
      this_storage ← get_prop this "storage";
      bound_storage ← get_prop bound "storage";
      set_prop this_storage key bound_storage
    else
      binding ← Binding.new true x;
      this_bound ← get_prop this "bound";
      Binding.addMasterBinding binding this_bound key;;
      this_storage ← get_prop this "storage";
      set_prop this_storage key binding).

(** [new SimpleBound(obj)]: allocate [this], run [super()] (no
    argument: [proto] and [plugins] are [undefined]), the field
    initialiser [storage = {}], then the body.  [fuel] bounds the depth
    of nested constructor calls. *)
Fixpoint new (fuel : nat) (obj : value) : M value :=
  match fuel with
  | 0 => out_of_fuel
  | S fuel' =>
      this ← alloc (mkObject CSimpleBound [] None);
      BaseBound.constructor this VUndef VUndef;;
      storage ← object_literal [];
      set_prop this "storage" storage;;
      constructor_body (new fuel') this obj;;
      mret this
  end.

(** [bind(obj)] *)
Definition bind (this obj : value) : M value :=
  storage ← get_prop this "storage";
  keys ← for_in_keys storage;
  for_each keys (fun key =>
    this_storage ← get_prop this "storage";
    b ← get_prop this_storage key;
    Binding.addMasterBinding b obj key);;
  mret VUndef.

End SimpleBound.

(** ** Well-formed heaps and closed forms used in the statements *)

(** A value of the heap [h]: an object reference points into [h]. *)
Definition value_okb (h : list object) (v : value) : bool :=
  match v with
  | VObj l => Nat.ltb l (length h)
  | _ => true
  end.

(** Every reference stored in a property points into the heap. *)
Definition heap_closedb (h : list object) : bool :=
  forallb (fun o => forallb (fun kp => value_okb h (p_value (snd kp))) (o_props o)) h.

(** [target[key]] can be assigned: [target] is an object of the heap and
    its property [key] is absent or writable. *)
Definition assignableb (w : world) (target : value) (key : string) : bool :=
  match target with
  | VObj l =>
      Nat.ltb l (length (heap w)) &&
      match assoc_get key (o_props (obj_at w l)) with
      | Some p => p_writable p
      | None => true
      end
  | _ => false
  end.

(** The result of [isBound], which leaves the world as it is. *)
Definition isBound_in (w : world) (obj : value) : outcome value :=
  match get_prop_in w obj "__bound__" with
  | Ok x => Ok (VBool (truthy x && instanceof_BaseBound_in w x))
  | Throw e => Throw e
  | OutOfFuel => OutOfFuel
  end.

(** The result of the two checks that end the [BaseBound] constructor. *)
Definition checks_in (w : world) (proto : value) : outcome unit :=
  if debug w && negb (String.eqb (typeof_in w proto) "object")
  then Throw (BoundError BaseBound.msg_only_objects)
  else if debug w && instanceof_BaseBound_in w proto
  then Throw (BoundError BaseBound.msg_rebind)
  else match isBound_in w proto with
       | Ok r => if truthy r then Throw (BoundError BaseBound.msg_rebind) else Ok tt
       | Throw e => Throw e
       | OutOfFuel => OutOfFuel
       end.

(** The three objects a [BaseBound] constructor call leaves behind when
    [this] is allocated at [n]: the instance, its empty [storage] and its
    [boundObject]. *)
Definition instance_object (c : cls) (plugins : value) (n : nat) : object :=
  mkObject c [("plugins", mkProp plugins true true true);
              ("storage", mkProp (VObj (n + 1)) true true true);
              ("boundObject", mkProp (VObj (n + 2)) true true true)] None.

Definition back_reference_object (n : nat) : object :=
  mkObject CObject [("__bound__", mkProp (VObj n) true true true)] None.

Definition constructed (c : cls) (plugins : value) (h : list object) : list object :=
  h ++ [instance_object c plugins (length h); mkObject CObject [] None;
        back_reference_object (length h)].

(** [w'] keeps the objects of [h]: its heap is [h] followed by the
    objects allocated since. *)
Definition keeps (h : list object) (w' : world) : Prop :=
  exists t, heap w' = h ++ t.

(** The object [o] after the assignment [o[k] = x]. *)
Definition written (o : object) (k : string) (x : value) : object :=
  mkObject (o_class o)
    (assoc_set k
       match assoc_get k (o_props o) with
       | Some p => mkProp x true (p_enumerable p) (p_configurable p)
       | None => data_prop x
       end (o_props o))
    (o_slots o).

(** ** Programs run in the statements *)

Module Scenario.

(** [new B(new B({}).boundObject)] *)
Definition rebind : M value :=
  proto ← object_literal [];
  b ← BaseBound.new proto VUndef;
  bo ← get_prop b "boundObject";
  BaseBound.new bo VUndef.

(** [BaseBound.isBound(new B({}).boundObject)] *)
Definition isBound_of_boundObject : M value :=
  proto ← object_literal [];
  b ← BaseBound.new proto VUndef;
  bo ← get_prop b "boundObject";
  BaseBound.isBound bo.

(** [const b = new B({}); [b, b.boundObject, keys of b.boundObject]] *)
Definition enumerate_boundObject : M (value * value * list string) :=
  proto ← object_literal [];
  b ← BaseBound.new proto VUndef;
  bo ← get_prop b "boundObject";
  keys ← for_in_keys bo;
  mret (b, bo, keys).

(** [new SimpleBound({x: 1})] *)
Definition construct_x1 (fuel : nat) : M value :=
  obj ← object_literal [("x", VNum 1)];
  SimpleBound.new fuel obj.

(** The constructor on [{x: 1}] with [super(obj)] in the place of
    [super()], so that the base constructor returns. *)
Definition body_x1 (fuel : nat) : M unit :=
  obj ← object_literal [("x", VNum 1)];
  this ← alloc (mkObject CSimpleBound [] None);
  BaseBound.constructor this obj VUndef;;
  storage ← object_literal [];
  set_prop this "storage" storage;;
  SimpleBound.constructor_body (SimpleBound.new fuel) this obj.

(** [const t = {}; new SimpleBound({x: 1}).bind(t)] *)
Definition construct_and_bind (fuel : nat) : M value :=
  obj ← object_literal [("x", VNum 1)];
  t ← object_literal [];
  b ← SimpleBound.new fuel obj;
  SimpleBound.bind b t.

(** [const t = {}; new SimpleBound({a: 1, b: {c: 2}}).bind(t)] *)
Definition construct_nested_and_bind (fuel : nat) : M value :=
  inner ← object_literal [("c", VNum 2)];
  obj ← object_literal [("a", VNum 1); ("b", inner)];
  t ← object_literal [];
  b ← SimpleBound.new fuel obj;
  SimpleBound.bind b t.

(** [bind({})] on an instance whose storage is what the constructor is
    written to build from [{a: 1, b: {c: 2}}]: a Binding at [a] and a
    nested storage object at [b]. *)
Definition bind_nested_storage : M value :=
  ba ← Binding.new true (VNum 1);
  bc ← Binding.new true (VNum 2);
  inner ← object_literal [("c", bc)];
  storage ← object_literal [("a", ba); ("b", inner)];
  this ← alloc (mkObject CSimpleBound [("storage", data_prop storage)] None);
  t ← object_literal [];
  SimpleBound.bind this t.

(** [bind(t)] with [t = {}] on an instance whose storage is [{x: Binding(1)}],
    then a write of 5 through the Binding; returns [t]. *)
Definition bind_flat_storage : M value :=
  bx ← Binding.new true (VNum 1);
  storage ← object_literal [("x", bx)];
  this ← alloc (mkObject CSimpleBound [("storage", data_prop storage)] None);
  t ← object_literal [];
  SimpleBound.bind this t;;
  Binding.set bx (VNum 5);;
  mret t.

(** A Binding with the mirrors [(t1, "x")] and [(t2, "y")]. *)
Definition two_mirrors : M (value * value * value) :=
  t1 ← object_literal [];
  t2 ← object_literal [("y", VNum 0)];
  b ← Binding.new true (VNum 1);
  Binding.addMasterBinding b t1 "x";;
  Binding.addMasterBinding b t2 "y";;
  mret (b, t1, t2).

End Scenario.

(** The world after [new B({})] with [debug] disabled: the prototype at
    0, the instance at 1, its storage at 2 and its boundObject at 3. *)
Definition bound_world : world :=
  Eval vm_compute in
    snd (run (proto ← object_literal []; BaseBound.new proto VUndef) (mkWorld [] false)).

(** A world holding the plain object [{x: 1}] at 0. *)
Definition plain_world : world :=
  mkWorld [mkObject CObject [("x", data_prop (VNum 1))] None] false.

(** The world [Scenario.two_mirrors] leaves: mirrors at 0 and 1, the
    Binding at 2. *)
Definition mirrors_world : world :=
  Eval vm_compute in snd (run Scenario.two_mirrors (mkWorld [] false)).

(** ** Definitions for the further properties *)

(** The keys [for_in_keys] yields, as a function of the world. *)
Definition keys_in (w : world) (v : value) : list string :=
  match v with
  | VObj l => enumerable_keys (o_props (obj_at w l))
  | VStr s => map string_of_nat (seq 0 (String.length s))
  | _ => []
  end.

(** [this.storage], [undefined] when the read raises. *)
Definition storage_of (w : world) (this : value) : value :=
  match get_prop_in w this "storage" with
  | Ok v => v
  | _ => VUndef
  end.

(** [storage[k]] is a Binding. *)
Definition stored_bindingb (w : world) (storage : value) (k : string) : bool :=
  match get_prop_in w storage k with
  | Ok (VObj lb) =>
      match o_slots (obj_at w lb) with
      | Some _ => true
      | None => false
      end
  | _ => false
  end.

(** [bind(target)] can run through the keys [ks]: [this], its storage and
    the target are three objects, the target is neither of the other two,
    and at every key of [ks] the storage holds a Binding and the target
    can be assigned. *)
Definition bind_readyb_on (w : world) (this target : value) (ks : list string) : bool :=
  match this, storage_of w this, target with
  | VObj lthis, VObj ls, VObj lt =>
      negb (Nat.eqb lt lthis) && negb (Nat.eqb lt ls)
      && forallb (fun k => stored_bindingb w (VObj ls) k && assignableb w target k) ks
  | _, _, _ => false
  end.

(** In [w'] the target mirrors the Binding that [storage[k]] held in [w]:
    the Binding has kept its value, lists [(target, k)] among its mirrors,
    and [target[k]] reads as that value. *)
Definition mirrored (w w' : world) (storage target : value) (k : string) : Prop :=
  exists lb st st',
    get_prop_in w storage k = Ok (VObj lb)
    /\ o_slots (obj_at w lb) = Some st
    /\ o_slots (obj_at w' lb) = Some st'
    /\ b_value st' = b_value st
    /\ In (target, k) (b_masters st')
    /\ get_prop_in w' target k = Ok (b_value st).

(** A Binding that has kept its value and flag and only gained mirrors. *)
Definition slot_grown (o0 o : option binding) : Prop :=
  match o0, o with
  | None, None => True
  | Some s0, Some s =>
      b_value s = b_value s0 /\ b_twoWay s = b_twoWay s0
      /\ exists extra, b_masters s = b_masters s0 ++ extra
  | _, _ => False
  end.

(** What [bind(target)] keeps true of the world while it runs, [lt] the
    location of the target: only the target's properties change, Bindings
    only gain mirrors, and what could be assigned on the target still can. *)
Definition bind_inv (lt : loc) (w0 w : world) : Prop :=
  (forall l, l <> lt -> o_props (obj_at w l) = o_props (obj_at w0 l))
  /\ (forall l, slot_grown (o_slots (obj_at w0 l)) (o_slots (obj_at w l)))
  /\ (forall k, assignableb w0 (VObj lt) k = true -> assignableb w (VObj lt) k = true).

(** The body of the loop of [bind]. *)
Definition bind_step (this obj : value) (key : string) : M unit :=
  this_storage ← get_prop this "storage";
  b ← get_prop this_storage key;
  Binding.addMasterBinding b obj key.

Module Setup.

(** An instance whose storage holds the Bindings [x: 1] and [y: 2], and a
    target [{}]; returns the instance and the target. *)
Definition flat_instance : M (value * value) :=
  bx ← Binding.new true (VNum 1);
  by' ← Binding.new true (VNum 2);
  storage ← object_literal [("x", bx); ("y", by')];
  this ← alloc (mkObject CSimpleBound [("storage", data_prop storage)] None);
  t ← object_literal [];
  mret (this, t).


(** A SimpleBound instance as the base constructor and the field
    initialiser leave it when the prototype [{x: 1}] is passed on. *)
Definition after_super : M (value * value) :=
  obj ← object_literal [("x", VNum 1)];
  this ← alloc (mkObject CSimpleBound [] None);
  BaseBound.constructor this obj VUndef;;
  storage ← object_literal [];
  set_prop this "storage" storage;;
  mret (this, obj).

End Setup.

(** Bindings at 0 and 1, the storage at 2, the instance at 3, the target at 4. *)
Definition flat_world : world :=
  Eval vm_compute in snd (run Setup.flat_instance (mkWorld [] false)).


(** The prototype at 0, the instance at 1, its storage at 4. *)
Definition super_world : world :=
  Eval vm_compute in snd (run Setup.after_super (mkWorld [] false)).


(** [plain_world] after [new B(obj)] on its object: the instance at 1, its
    storage at 2, its boundObject at 3. *)
Definition plain_bound_world : world :=
  Eval vm_compute in snd (run (BaseBound.new (VObj 0) VUndef) plain_world).

(** ** Reading and writing a heap that has grown *)

Section Heap.

Variables (h t : list object) (d : bool).

Lemma obj_at_fresh i :
  obj_at (mkWorld (h ++ t) d) (length h + i) = default empty_object (t !! i).
Proof.
  unfold obj_at; simpl. rewrite lookup_app_r by lia.
  replace (length h + i - length h) with i by lia. reflexivity.
Qed.

Lemma obj_at_old d' l :
  l < length h -> obj_at (mkWorld (h ++ t) d) l = obj_at (mkWorld h d') l.
Proof. intros Hl. unfold obj_at; simpl. now rewrite lookup_app_l. Qed.

Lemma insert_fresh i o : <[length h + i := o]> (h ++ t) = h ++ <[i := o]> t.
Proof. apply insert_app_r. Qed.

Lemma obj_at_fresh0 o : obj_at (mkWorld (h ++ o :: t) d) (length h) = o.
Proof.
  unfold obj_at; cbn [heap]. rewrite lookup_app_r by lia.
  now rewrite Nat.sub_diag.
Qed.

Lemma insert_fresh0 o o' : <[length h := o']> (h ++ o :: t) = h ++ o' :: t.
Proof.
  rewrite <- (Nat.add_0_r (length h)). now rewrite insert_app_r.
Qed.

Lemma snoc_fresh o : (h ++ t) ++ [o] = h ++ (t ++ [o]).
Proof. symmetry; apply app_assoc. Qed.

Lemma value_okb_lt l : value_okb h (VObj l) = true -> l < length h.
Proof. simpl. apply Nat.ltb_lt. Qed.

Lemma get_prop_in_old d' v k :
  value_okb h v = true ->
  get_prop_in (mkWorld (h ++ t) d) v k = get_prop_in (mkWorld h d') v k.
Proof.
  destruct v; try reflexivity. intros Hv%value_okb_lt.
  unfold get_prop_in. now rewrite (obj_at_old d').
Qed.

Lemma typeof_in_old d' v :
  value_okb h v = true ->
  typeof_in (mkWorld (h ++ t) d) v = typeof_in (mkWorld h d') v.
Proof.
  destruct v; try reflexivity. intros Hv%value_okb_lt.
  unfold typeof_in. now rewrite (obj_at_old d').
Qed.

Lemma instanceof_in_old d' v :
  value_okb h v = true ->
  instanceof_BaseBound_in (mkWorld (h ++ t) d) v
  = instanceof_BaseBound_in (mkWorld h d') v.
Proof.
  destruct v; try reflexivity. intros Hv%value_okb_lt.
  unfold instanceof_BaseBound_in, class_of. now rewrite (obj_at_old d').
Qed.

End Heap.

Lemma assoc_get_In k ps p : assoc_get k ps = Some p -> In (k, p) ps.
Proof.
  induction ps as [|[k' p'] r IH]; simpl; [discriminate|].
  destruct (String.eqb_spec k k') as [->|_].
  - intros [= ->]. now left.
  - intros H. right. now apply IH.
Qed.

Lemma string_index_not_object s i k l : string_index s i k <> Some (VObj l).
Proof.
  revert i. induction s as [|c r IH]; intros i; simpl; [discriminate|].
  destruct (String.eqb k (string_of_nat i)); [discriminate | apply IH].
Qed.

(** In a closed heap a property read returns a value of the heap. *)
Lemma closed_get_prop h d v k x :
  heap_closedb h = true -> value_okb h v = true ->
  get_prop_in (mkWorld h d) v k = Ok x -> value_okb h x = true.
Proof.
  intros Hc Hv. destruct v as [| |b|n|s|l]; cbn [get_prop_in];
    try congruence; try (now intros [= <-]).
  - destruct (String.eqb k "length"); [now intros [= <-]|].
    destruct (string_index s 0 k) as [y|] eqn:E; simpl; [|now intros [= <-]].
    intros [= <-]. destruct y; try reflexivity.
    now apply string_index_not_object in E.
  - apply value_okb_lt in Hv. intros Hx. unfold obj_at in Hx; cbn [heap] in Hx.
    destruct (lookup_lt_is_Some_2 h l Hv) as [o Ho]. rewrite Ho in Hx. simpl in Hx.
    destruct (assoc_get k (o_props o)) as [p|] eqn:E; injection Hx as <-;
      [|reflexivity].
    unfold heap_closedb in Hc.
    rewrite forallb_forall in Hc.
    assert (Hin : In o h) by (apply list_elem_of_In, list_elem_of_lookup; eauto).
    specialize (Hc o Hin). rewrite forallb_forall in Hc.
    apply (Hc (k, p)). now apply assoc_get_In.
Qed.

Lemma isBound_in_old h t d d' v :
  heap_closedb h = true -> value_okb h v = true ->
  isBound_in (mkWorld (h ++ t) d) v = isBound_in (mkWorld h d') v.
Proof.
  intros Hc Hv. unfold isBound_in. rewrite (get_prop_in_old h t d d') by assumption.
  destruct (get_prop_in (mkWorld h d') v "__bound__") as [x| |] eqn:E; try reflexivity.
  apply closed_get_prop in E; try assumption.
  now rewrite (instanceof_in_old h t d d').
Qed.

(** ** The copy never runs out of fuel *)

Lemma bounded_nodup_length (n : nat) (l : list nat) :
  List.NoDup l -> (forall x, In x l -> x < n) -> length l <= n.
Proof.
  intros Hnd Hlt.
  pose proof (List.NoDup_incl_length (l' := seq 0 n) Hnd) as H.
  rewrite List.length_seq in H. apply H.
  intros x Hx. apply in_seq. specialize (Hlt x Hx). lia.
Qed.

Lemma existsb_eqb_false l stack :
  existsb (Nat.eqb l) stack = false -> ~ In l stack.
Proof.
  intros H Hin. assert (existsb (Nat.eqb l) stack = true); [|congruence].
  apply existsb_exists. exists l. split; [assumption | apply Nat.eqb_refl].
Qed.

Lemma stringify_fields_fuel serialise ps :
  (forall v, serialise v <> OutOfFuel) ->
  stringify_fields serialise ps <> OutOfFuel.
Proof.
  intros Hall. induction ps as [|[k p] r IH]; cbn [stringify_fields];
    [discriminate|].
  destruct (p_enumerable p); [|exact IH].
  specialize (Hall (p_value p)).
  destruct (serialise (p_value p)) as [[j|]| |];
    try discriminate; try contradiction; try exact IH.
  destruct (stringify_fields serialise r); try discriminate; contradiction.
Qed.

(** The stack holds distinct objects of the heap, so it is never longer
    than the heap. *)
Lemma stringify_fuel w : forall fuel stack v,
  List.NoDup stack -> (forall x, In x stack -> x < length (heap w)) ->
  length (heap w) + 2 <= fuel + length stack ->
  stringify fuel w stack v <> OutOfFuel.
Proof.
  induction fuel as [|fuel IH]; intros stack v Hnd Hlt Hfuel.
  - pose proof (bounded_nodup_length _ _ Hnd Hlt). lia.
  - destruct v as [| |b|n|s|l]; cbn [stringify]; try discriminate.
    assert (Hfields : existsb (Nat.eqb l) stack = false ->
      stringify_fields (stringify fuel w (l :: stack)) (o_props (obj_at w l))
      <> OutOfFuel).
    { intros Ein%existsb_eqb_false.
      destruct (Nat.lt_ge_cases l (length (heap w))) as [Hl|Hl].
      - apply stringify_fields_fuel. intros v'. apply IH.
        + now constructor.
        + intros x [<-|Hx]; auto.
        + cbn [length]. lia.
      - unfold obj_at. rewrite lookup_ge_None_2 by assumption. discriminate. }
    destruct (o_class (obj_at w l)); try discriminate.
    all: destruct (existsb (Nat.eqb l) stack); try discriminate.
    all: specialize (Hfields eq_refl).
    all: destruct (stringify_fields _ _); try discriminate; contradiction.
Qed.

Lemma set_prop_fuel t k x w : fst (set_prop t k x w) <> OutOfFuel.
Proof.
  destruct t; try discriminate.
  unfold set_prop, gets, mbind, M_bind, update_props, throw.
  destruct (assoc_get k _) as [p|]; [destruct (p_writable p)|]; discriminate.
Qed.

Section JsonInduction.

Variable P : json -> Prop.
Hypothesis HNull : P JNull.
Hypothesis HBool : forall b, P (JBool b).
Hypothesis HNum : forall n, P (JNum n).
Hypothesis HStr : forall s, P (JStr s).
Hypothesis HObject :
  forall fs, List.Forall (fun kj => P (snd kj)) fs -> P (JObject fs).

Fixpoint json_nested_ind (j : json) : P j :=
  match j with
  | JNull => HNull
  | JBool b => HBool b
  | JNum n => HNum n
  | JStr s => HStr s
  | JObject fs =>
      HObject fs
        ((fix all (fs : list (string * json))
            : List.Forall (fun kj => P (snd kj)) fs :=
            match fs with
            | [] => @List.Forall_nil _ _
            | kj :: r =>
                @List.Forall_cons _ _ kj r (json_nested_ind (snd kj)) (all r)
            end) fs)
  end.

End JsonInduction.

Lemma parse_fuel j : forall w, fst (parse j w) <> OutOfFuel.
Proof.
  induction j as [| | | |fs IH] using json_nested_ind; intros w;
    try discriminate.
  cbn [parse]. unfold object_literal, alloc, mbind, M_bind. cbn [map].
  set (o := VObj (length (heap w))). generalize (mkWorld (heap w ++ [mkObject CObject [] None]) (debug w)).
  induction IH as [|[k j] r Hj _ IHr]; intros w1; cbn [parse_fields].
  - discriminate.
  - unfold mbind, M_bind. specialize (Hj w1). cbn [snd] in Hj.
    destruct (parse j w1) as [[v| |] w2]; try discriminate; try contradiction.
    pose proof (set_prop_fuel o k v w2) as Hs.
    destruct (set_prop o k v w2) as [[[]| |] w3]; try discriminate;
      try contradiction.
    apply IHr.
Qed.

Lemma JSON_roundtrip_fuel v w : fst (JSON_roundtrip v w) <> OutOfFuel.
Proof.
  unfold JSON_roundtrip, gets, mbind, M_bind.
  pose proof (stringify_fuel w (S (S (length (heap w)))) [] v) as H.
  destruct (stringify _ w [] v) as [[j|]| |]; try discriminate.
  - apply parse_fuel.
  - exfalso. apply H; [constructor | intros ? [] | cbn [length]; lia | reflexivity].
Qed.

(** ** The methods of BaseBound in closed form *)

Lemma isBound_run obj w : BaseBound.isBound obj w = (isBound_in w obj, w).
Proof.
  unfold BaseBound.isBound, isBound_in, mbind, M_bind, get_prop.
  destruct (get_prop_in w obj "__bound__") as [x| |] eqn:E; try reflexivity.
  rewrite Bool.negb_involutive. cbn [truthy].
  destruct (truthy x); [rewrite E|]; reflexivity.
Qed.

Ltac heap_step :=
  repeat (cbn -[Nat.add BaseBound.msg_only_objects BaseBound.isBound];
          unfold mbind, M_bind;
          rewrite ?length_app, ?obj_at_fresh, ?insert_fresh, ?snoc_fresh).

Ltac unfold_ops :=
  unfold alloc, object_literal, set_prop, define_property, gets, update_props,
    get_prop, typeof, instanceof_BaseBound, for_in_keys.

(** Symbolic execution of a program over a heap [h ++ t] whose tail [t]
    is known. *)
Ltac unfold_all :=
  unfold BaseBound.new, BaseBound.constructor, BaseBound.isBound, SimpleBound.bind,
    Binding.new, Binding.addMasterBinding, Binding.slots_of, Binding.put_slots;
  unfold_ops.

Ltac sym_run :=
  repeat (cbn -[Nat.add BaseBound.msg_only_objects];
          unfold mbind, M_bind;
          rewrite <- ?app_assoc, <- ?Nat.add_assoc, ?length_app,
            ?obj_at_fresh, ?obj_at_fresh0, ?insert_fresh, ?insert_fresh0).

(** The constructor on a fresh [this]: the three objects are set up
    whatever the checks say, and the checks see them. *)
Lemma constructor_run h d c proto plugins :
  BaseBound.constructor (VObj (length h)) proto plugins
    (mkWorld (h ++ [mkObject c [] None]) d)
  = (checks_in (mkWorld (constructed c plugins h) d) proto,
     mkWorld (constructed c plugins h) d).
Proof.
  replace (VObj (length h)) with (VObj (length h + 0)) by (f_equal; lia).
  unfold BaseBound.constructor. unfold_ops.
  heap_step. rewrite Nat.add_0_r.
  unfold checks_in, constructed, instance_object, back_reference_object, data_prop.
  cbn [debug].
  match goal with |- context [typeof_in ?w _] => set (w1 := w) end.
  destruct (d && negb (typeof_in w1 proto =? "object")); [reflexivity|].
  cbn. unfold mbind, M_bind.
  destruct (d && instanceof_BaseBound_in w1 proto); [reflexivity|].
  rewrite isBound_run.
  destruct (isBound_in w1 proto) as [r| |]; try reflexivity.
  cbn. destruct (truthy r); reflexivity.
Qed.

Lemma BaseBound_new_run h d proto plugins :
  BaseBound.new proto plugins (mkWorld h d)
  = (match checks_in (mkWorld (constructed CBaseBound plugins h) d) proto with
     | Ok _ => Ok (VObj (length h))
     | Throw e => Throw e
     | OutOfFuel => OutOfFuel
     end, mkWorld (constructed CBaseBound plugins h) d).
Proof.
  unfold BaseBound.new, alloc, mbind, M_bind. cbn [heap debug].
  rewrite constructor_run.
  destruct (checks_in _ proto); reflexivity.
Qed.

(** [super()] passes [undefined], which no check lets through. *)
Lemma SimpleBound_new_run fuel obj h d :
  SimpleBound.new (S fuel) obj (mkWorld h d)
  = (Throw (if d then BoundError BaseBound.msg_only_objects
            else TypeError (ReadOfNullish "__bound__")),
     mkWorld (constructed CSimpleBound VUndef h) d).
Proof.
  cbn [SimpleBound.new]. unfold alloc, mbind, M_bind. cbn [heap debug].
  rewrite constructor_run. destruct d; reflexivity.
Qed.

Lemma messages_differ : BaseBound.msg_only_objects <> BaseBound.msg_rebind.
Proof. intros H. vm_compute in H. discriminate. Qed.

Lemma isBound_in_boolean w obj r :
  isBound_in w obj = Ok r -> exists b, r = VBool b.
Proof.
  unfold isBound_in. destruct (get_prop_in w obj "__bound__"); intros [= <-]; eauto.
Qed.

Lemma get_prop_in_cases w obj k :
  (exists x, get_prop_in w obj k = Ok x /\ obj <> VUndef /\ obj <> VNull)
  \/ (get_prop_in w obj k = Throw (TypeError (ReadOfNullish k))
      /\ (obj = VUndef \/ obj = VNull)).
Proof.
  destruct obj; cbn [get_prop_in];
    try (right; split; [reflexivity | tauto]); left.
  1-2: eexists; split; [reflexivity | split; discriminate].
  - destruct (String.eqb k "length");
      eexists; (split; [reflexivity | split; discriminate]).
  - destruct (assoc_get k (o_props (obj_at w l)));
      eexists; (split; [reflexivity | split; discriminate]).
Qed.

Lemma isBound_in_throw w obj e :
  isBound_in w obj = Throw e ->
  e = TypeError (ReadOfNullish "__bound__") /\ nullish obj = true.
Proof.
  unfold isBound_in.
  destruct (get_prop_in_cases w obj "__bound__") as [(x & -> & _)|[-> [->| ->]]];
    intros [= <-]; split; reflexivity.
Qed.

Lemma isBound_in_fuel w obj : isBound_in w obj <> OutOfFuel.
Proof.
  unfold isBound_in.
  destruct (get_prop_in_cases w obj "__bound__") as [(x & -> & _)|[-> _]];
    congruence.
Qed.

(** [isBound] of [undefined] or [null] raises a TypeError. *)
Lemma isBound_nullish_throws w obj :
  nullish obj = true ->
  run (BaseBound.isBound obj) w = (Throw (TypeError (ReadOfNullish "__bound__")), w).
Proof. destruct obj; try discriminate; reflexivity. Qed.

(** ** BaseBound: the claims *)

(** C7.  [bindAndMap] raises the BoundError "Method not implemented." on
    every receiver, for every combination of arguments and in every world,
    so whether [debug] is enabled or not; it changes nothing. *)
Theorem bindAndMap_not_implemented (this obj mapToOriginal twoWay : value) (w : world) :
  run (BaseBound.bindAndMap this obj mapToOriginal twoWay) w
  = (Throw (BoundError "Method not implemented."), w).
Proof. reflexivity. Qed.

(** C4, as amended.  On a closed heap and a prototype of that heap, the
    constructor raises "Only object binds are allowed..." exactly when
    [debug] is enabled and [typeof proto] is not "object"; it raises "Cannot
    rebind a bound object." exactly when that first error is not raised and
    either [debug] is enabled and [proto] is an instance of BaseBound, or
    [isBound(proto)] is true, the latter whatever [debug] is; so with
    [debug] disabled the rebind error is raised exactly for bound objects.
    It raises no other BoundError, and for a prototype other than
    [undefined] and [null] it either raises one of the two or returns the
    new instance. *)
Theorem constructor_error_conditions (w : world) (proto plugins : value)
    (Hclosed : heap_closedb (heap w) = true)
    (Hproto : value_okb (heap w) proto = true) :
  let r := fst (run (BaseBound.new proto plugins) w) in
  let bound := fst (run (BaseBound.isBound proto) w) = Ok (VBool true) in
  (r = Throw (BoundError BaseBound.msg_only_objects)
     <-> debug w = true /\ typeof_in w proto <> "object")
  /\ (r = Throw (BoundError BaseBound.msg_rebind)
     <-> (debug w = true -> typeof_in w proto = "object")
         /\ ((debug w = true /\ instanceof_BaseBound_in w proto = true) \/ bound))
  /\ (debug w = false ->
      (r = Throw (BoundError BaseBound.msg_rebind) <-> bound))
  /\ (forall msg, r = Throw (BoundError msg) ->
        msg = BaseBound.msg_only_objects \/ msg = BaseBound.msg_rebind)
  /\ (nullish proto = false ->
      r = Ok (VObj (length (heap w)))
      \/ r = Throw (BoundError BaseBound.msg_only_objects)
      \/ r = Throw (BoundError BaseBound.msg_rebind)).
Proof.
  destruct w as [h d]; cbn [heap debug] in *. unfold run.
  rewrite BaseBound_new_run, isBound_run. cbn [fst].
  unfold checks_in, constructed. cbn [debug].
  rewrite (typeof_in_old h _ d d), (instanceof_in_old h _ d d),
    (isBound_in_old h _ d d) by assumption.
  pose proof messages_differ as Hm.
  remember (mkWorld h d) as w0 eqn:Ew0. clear Ew0.
  destruct (String.eqb_spec (typeof_in w0 proto) "object") as [Ety|Ety];
    destruct d; cbn [andb negb];
    destruct (instanceof_BaseBound_in w0 proto) eqn:Ei;
    destruct (isBound_in w0 proto) as [r|e|] eqn:Eb;
    try (destruct (isBound_in_boolean _ _ _ Eb) as [[|] ->]);
    try (apply isBound_in_throw in Eb as [-> Hnull]);
    try (now apply isBound_in_fuel in Eb); cbn [truthy];
    repeat split; intros; try tauto; try congruence; try discriminate;
    intuition (try congruence; try discriminate).
Qed.

Lemma constructor_error_conditions_witness :
  heap_closedb (heap bound_world) = true
  /\ value_okb (heap bound_world) (VObj 3) = true
  /\ debug bound_world = false
  /\ (fst (run (BaseBound.new (VObj 3) VUndef) bound_world)
       = Throw (BoundError BaseBound.msg_rebind)
     <-> fst (run (BaseBound.isBound (VObj 3)) bound_world) = Ok (VBool true)).
Proof.
  split; [reflexivity|]. split; [reflexivity|]. split; [reflexivity|].
  apply (constructor_error_conditions bound_world (VObj 3) VUndef);
    reflexivity.
Defined.

(** C4 as stated fails: with [debug] disabled, constructing from the
    boundObject of an earlier instance raises "Cannot rebind a bound
    object.". *)
Lemma rebind_raised_without_debug :
  debug (mkWorld [] false) = false
  /\ fst (run Scenario.rebind (mkWorld [] false))
     = Throw (BoundError "Cannot rebind a bound object.").
Proof. split; reflexivity. Qed.

(** C6 as stated fails: [isBound(undefined)] returns no boolean, it
    raises a TypeError. *)
Lemma isBound_undefined_throws :
  run (BaseBound.isBound VUndef) (mkWorld [] false)
  = (Throw (TypeError (ReadOfNullish "__bound__")), mkWorld [] false).
Proof. reflexivity. Qed.

(** C6, as amended.  For every argument other than [undefined] and [null],
    [isBound] returns a boolean and changes nothing; the boolean is true
    iff the [__bound__] field of the argument is non-falsy and an instance
    of BaseBound.  In particular it is true for the boundObject of every
    instance whose construction returns (that of [new B({})] for one),
    false for [{}], and false for a plain object whose [__bound__] field is
    falsy. *)
Theorem isBound_spec (w : world) (obj : value) (Hobj : nullish obj = false) :
  (exists b : bool,
      run (BaseBound.isBound obj) w = (Ok (VBool b), w)
      /\ (b = true <->
          exists x, get_prop_in w obj "__bound__" = Ok x
                    /\ truthy x = true /\ instanceof_BaseBound_in w x = true))
  /\ (forall proto plugins this w',
        run (BaseBound.new proto plugins) w = (Ok this, w') ->
        exists bo, get_prop_in w' this "boundObject" = Ok bo
                   /\ run (BaseBound.isBound bo) w' = (Ok (VBool true), w'))
  /\ fst (run Scenario.isBound_of_boundObject w) = Ok (VBool true)
  /\ fst (run (o ← object_literal []; BaseBound.isBound o) w) = Ok (VBool false)
  /\ (forall x, truthy x = false ->
        fst (run (o ← object_literal [("__bound__", x)]; BaseBound.isBound o) w)
        = Ok (VBool false)).
Proof.
  unfold run. repeat split.
  - rewrite isBound_run. unfold isBound_in.
    destruct (get_prop_in_cases w obj "__bound__") as [(x & E & _)|[_ [->| ->]]];
      try discriminate.
    rewrite E. eexists; split; [reflexivity|].
    rewrite Bool.andb_true_iff. split.
    + intros [? ?]. eauto.
    + intros (y & [= <-] & ? & ?). auto.
  - intros proto plugins this w'. destruct w as [h d].
    rewrite BaseBound_new_run.
    destruct (checks_in _ proto); intros [= <- <-].
    unfold constructed. cbn [get_prop_in]. rewrite obj_at_fresh0.
    cbn -[Nat.add]. eexists; split; [reflexivity|].
    rewrite isBound_run. unfold isBound_in, instanceof_BaseBound_in, class_of.
    cbn [get_prop_in]. rewrite obj_at_fresh. cbn. now rewrite obj_at_fresh0.
  - destruct w as [h d]. unfold Scenario.isBound_of_boundObject. unfold_all.
    destruct d; sym_run; reflexivity.
  - destruct w as [h d]. unfold_all. sym_run. reflexivity.
  - intros x Hx. destruct w as [h d]. unfold_all. sym_run.
    rewrite Hx. reflexivity.
Qed.

Lemma isBound_spec_witness :
  nullish (VObj 3) = false
  /\ exists b : bool,
      run (BaseBound.isBound (VObj 3)) bound_world = (Ok (VBool b), bound_world)
      /\ (b = true <->
          exists x, get_prop_in bound_world (VObj 3) "__bound__" = Ok x
                    /\ truthy x = true
                    /\ instanceof_BaseBound_in bound_world x = true).
Proof.
  split; [reflexivity|].
  apply (isBound_spec bound_world (VObj 3)); reflexivity.
Defined.

(** [Object.defineProperty] with a descriptor that names only [value] and
    [writable] hides a property it creates, and leaves a property that is
    already there as enumerable as it was. *)
Lemma define_property_new_is_hidden :
  fst (run (o ← object_literal [];
            define_property o "k" (mkDesc (Some VNull) (Some true) None None);;
            for_in_keys o) (mkWorld [] false)) = Ok [].
Proof. reflexivity. Qed.

Lemma define_property_existing_stays_enumerable :
  fst (run (o ← object_literal [("k", VNull)];
            define_property o "k" (mkDesc (Some VNull) (Some true) None None);;
            for_in_keys o) (mkWorld [] false)) = Ok ["k"].
Proof. reflexivity. Qed.

(** C8, what the code does.  After [new B({})] in any world, the
    [__bound__] property of the boundObject points to the instance and is
    writable, and it is enumerable: enumerating the keys of boundObject
    yields [__bound__]. *)
Theorem back_reference_is_enumerable (w : world) :
  exists w',
    run Scenario.enumerate_boundObject w
    = (Ok (VObj (length (heap w) + 1), VObj (length (heap w) + 3), ["__bound__"]), w')
    /\ own_prop w' (VObj (length (heap w) + 3)) "__bound__"
       = Some (mkProp (VObj (length (heap w) + 1)) true true true).
Proof.
  destruct w as [h d]. cbn [heap].
  unfold run, Scenario.enumerate_boundObject.
  unfold_all. destruct d; sym_run.
  all: eexists; split; [reflexivity|]; sym_run; reflexivity.
Qed.

(** ** SimpleBound: the claims *)

(** C10.  For every argument and in every world, [new SimpleBound(obj)]
    raises an exception inside [super()]: the BoundError for a non-object
    prototype when [debug] is enabled, the TypeError of reading
    [__bound__] of [undefined] when it is disabled.  All it leaves behind
    is the instance, its empty storage and its boundObject. *)
Theorem SimpleBound_new_always_throws (fuel : nat) (obj : value) (w : world) :
  run (SimpleBound.new (S fuel) obj) w
  = (Throw (if debug w
            then BoundError BaseBound.msg_only_objects
            else TypeError (ReadOfNullish "__bound__")),
     mkWorld (heap w ++ [instance_object CSimpleBound VUndef (length (heap w));
                         mkObject CObject [] None;
                         back_reference_object (length (heap w))])
             (debug w)).
Proof. destruct w as [h d]. apply SimpleBound_new_run. Qed.

(** C9.  On a closed heap, running [new SimpleBound(obj)] leaves every
    object that existed before as it was, so no key of [obj] is added,
    removed or reassigned, and [isBound(obj)] gives what it gave before. *)
Theorem SimpleBound_new_leaves_prototype (fuel : nat) (obj : value) (w : world)
    (Hclosed : heap_closedb (heap w) = true)
    (Hobj : value_okb (heap w) obj = true) :
  let w' := snd (run (SimpleBound.new fuel obj) w) in
  (forall l o, heap w !! l = Some o -> heap w' !! l = Some o)
  /\ (forall k, get_prop_in w' obj k = get_prop_in w obj k)
  /\ fst (run (for_in_keys obj) w') = fst (run (for_in_keys obj) w)
  /\ fst (run (BaseBound.isBound obj) w') = fst (run (BaseBound.isBound obj) w).
Proof.
  destruct w as [h d]. cbn [heap] in *. unfold run.
  destruct fuel as [|fuel]; [repeat split; auto|].
  rewrite SimpleBound_new_run. cbn [snd]. unfold constructed.
  rewrite !isBound_run. cbn [fst].
  repeat split.
  - intros l o Hl. cbn [heap]. rewrite lookup_app_l; [assumption|].
    eapply lookup_lt_Some; eassumption.
  - intros k. now apply get_prop_in_old.
  - unfold for_in_keys, gets. cbn [fst]. destruct obj; try reflexivity.
    apply value_okb_lt in Hobj. now rewrite (obj_at_old h _ d d).
  - now apply isBound_in_old.
Qed.

Lemma SimpleBound_new_leaves_prototype_witness :
  heap_closedb (heap plain_world) = true
  /\ value_okb (heap plain_world) (VObj 0) = true
  /\ (forall k,
        get_prop_in (snd (run (SimpleBound.new 1 (VObj 0)) plain_world)) (VObj 0) k
        = get_prop_in plain_world (VObj 0) k).
Proof.
  split; [reflexivity|]. split; [reflexivity|].
  apply (SimpleBound_new_leaves_prototype 1 (VObj 0) plain_world); reflexivity.
Defined.

(** C1, what the code does.  [new SimpleBound({x: 1})] raises inside
    [super()], before the copy is made: no Binding exists afterwards, the
    storage of the instance is empty and its boundObject has no [x].  And
    were [super()] to return, the body would still raise at the first key,
    because it registers [this.bound], which is [undefined], as the mirror. *)
Theorem constructor_builds_nothing (fuel : nat) (d : bool) :
  (exists w',
      run (Scenario.construct_x1 (S fuel)) (mkWorld [] d)
      = (Throw (if d then BoundError BaseBound.msg_only_objects
                else TypeError (ReadOfNullish "__bound__")), w')
      /\ Forall (fun o => o_slots o = None) (heap w')
      /\ get_prop_in w' (VObj 1) "storage" = Ok (VObj 2)
      /\ o_props (obj_at w' 2) = []
      /\ get_prop_in w' (VObj 1) "boundObject" = Ok (VObj 3)
      /\ own_prop w' (VObj 3) "x" = None)
  /\ fst (run (Scenario.body_x1 fuel) (mkWorld [] d))
     = Throw (TypeError (WriteOfNullish "x")).
Proof.
  split.
  - destruct d; eexists; (split; [vm_compute; reflexivity|]);
      repeat split; repeat constructor.
  - destruct d; vm_compute; reflexivity.
Qed.

(** C3, what the code does.  In the scenario [new SimpleBound({x: 1})]
    followed by [bind(t)] with [t = {}], the constructor raises, [bind] is
    never reached, and [t] has no [x] afterwards. *)
Theorem bind_scenario_never_synchronises (fuel : nat) (d : bool) :
  exists w',
    run (Scenario.construct_and_bind (S fuel)) (mkWorld [] d)
    = (Throw (if d then BoundError BaseBound.msg_only_objects
              else TypeError (ReadOfNullish "__bound__")), w')
    /\ own_prop w' (VObj 1) "x" = None
    /\ get_prop_in w' (VObj 1) "x" = Ok VUndef.
Proof.
  destruct d; eexists; (split; [vm_compute; reflexivity|]); split; reflexivity.
Qed.

(** C5, what the code does.  [new SimpleBound({a: 1, b: {c: 2}})] raises
    before [bind] is reached.  And [bind] itself, on a storage with a
    Binding at [a] and a nested storage at [b], registers [(t, a)] and then
    raises a TypeError at [b]: a stored value is never tested for being a
    Binding. *)
Theorem bind_raises_on_nested_storage (fuel : nat) (d : bool) :
  (exists w',
      run (Scenario.construct_nested_and_bind (S fuel)) (mkWorld [] d)
      = (Throw (if d then BoundError BaseBound.msg_only_objects
                else TypeError (ReadOfNullish "__bound__")), w')
      /\ o_props (obj_at w' 2) = [])
  /\ (exists w',
        run Scenario.bind_nested_storage (mkWorld [] d)
        = (Throw (TypeError (NotAFunction "addMasterBinding")), w')
        /\ get_prop_in w' (VObj 5) "a" = Ok (VNum 1)
        /\ own_prop w' (VObj 5) "b" = None
        /\ o_slots (obj_at w' 0) = Some (mkBinding true (VNum 1) [(VObj 5, "a")])).
Proof.
  split; destruct d; eexists; (split; [vm_compute; reflexivity|]);
    repeat split; reflexivity.
Qed.

(** ** Binding: write propagation *)

Lemma assoc_get_set_eq k p ps : assoc_get k (assoc_set k p ps) = Some p.
Proof.
  induction ps as [|[k' p'] r IH]; simpl.
  - now rewrite String.eqb_refl.
  - destruct (String.eqb_spec k k') as [->|Hne]; simpl.
    + now rewrite String.eqb_refl.
    + destruct (String.eqb_spec k k'); [contradiction | assumption].
Qed.

Lemma assoc_get_set_ne k k' p ps :
  k <> k' -> assoc_get k' (assoc_set k p ps) = assoc_get k' ps.
Proof.
  intros Hne. induction ps as [|[k0 p0] r IH]; simpl.
  - destruct (String.eqb_spec k' k); [congruence | reflexivity].
  - destruct (String.eqb_spec k k0) as [->|Hk]; simpl.
    + destruct (String.eqb_spec k' k0); [congruence | reflexivity].
    + destruct (String.eqb_spec k' k0); [reflexivity | assumption].
Qed.

Section Assignment.

Variables (w : world) (l : loc) (k : string) (x : value).
Hypothesis Hassignable : assignableb w (VObj l) k = true.

Let w2 : world :=
  mkWorld (<[l := written (obj_at w l) k x]> (heap w)) (debug w).

Lemma assignable_lt : l < length (heap w).
Proof.
  cbn in Hassignable. apply Bool.andb_true_iff in Hassignable as [H _].
  now apply Nat.ltb_lt.
Qed.

Lemma set_prop_run : set_prop (VObj l) k x w = (Ok tt, w2).
Proof.
  cbn in Hassignable. apply Bool.andb_true_iff in Hassignable as [_ H].
  unfold set_prop, gets, mbind, M_bind, update_props, w2, written.
  destruct (assoc_get k (o_props (obj_at w l))) as [p|]; [|reflexivity].
  now rewrite H.
Qed.

Lemma obj_at_written : obj_at w2 l = written (obj_at w l) k x.
Proof.
  unfold obj_at, w2; cbn [heap].
  now rewrite list_lookup_insert_eq by apply assignable_lt.
Qed.

Lemma obj_at_unwritten l' : l' <> l -> obj_at w2 l' = obj_at w l'.
Proof.
  intros Hne. unfold obj_at, w2; cbn [heap].
  now rewrite list_lookup_insert_ne by congruence.
Qed.

Lemma written_length : length (heap w2) = length (heap w).
Proof. apply length_insert. Qed.

Lemma written_slots l' : o_slots (obj_at w2 l') = o_slots (obj_at w l').
Proof.
  destruct (Nat.eq_dec l' l) as [->|Hne].
  - now rewrite obj_at_written.
  - now rewrite obj_at_unwritten.
Qed.

(** The assigned property reads as [x]. *)
Lemma written_reads : get_prop_in w2 (VObj l) k = Ok x.
Proof.
  cbn [get_prop_in]. rewrite obj_at_written. unfold written; cbn [o_props].
  rewrite assoc_get_set_eq.
  now destruct (assoc_get k (o_props (obj_at w l))).
Qed.

(** Every other property reads as before. *)
Lemma unwritten_reads t k' :
  t <> VObj l \/ k' <> k -> get_prop_in w2 t k' = get_prop_in w t k'.
Proof.
  intros Hne. destruct t as [| |b|n|s|l']; try reflexivity.
  cbn [get_prop_in]. destruct (Nat.eq_dec l' l) as [->|Hl].
  - destruct Hne as [?|Hk]; [congruence|].
    rewrite obj_at_written. unfold written; cbn [o_props].
    now rewrite assoc_get_set_ne by congruence.
  - now rewrite obj_at_unwritten.
Qed.

(** What could be assigned before can be assigned after. *)
Lemma written_assignable t k' :
  assignableb w t k' = true -> assignableb w2 t k' = true.
Proof.
  destruct t as [| |b|n|s|l']; try discriminate.
  cbn [assignableb]. rewrite written_length.
  intros [Hlt Hw]%Bool.andb_true_iff. rewrite Hlt; cbn [andb].
  destruct (Nat.eq_dec l' l) as [->|Hl]; [|now rewrite obj_at_unwritten].
  rewrite obj_at_written. unfold written; cbn [o_props].
  destruct (String.eqb_spec k k') as [<-|Hk].
  - rewrite assoc_get_set_eq.
    now destruct (assoc_get k (o_props (obj_at w l))).
  - now rewrite assoc_get_set_ne.
Qed.

End Assignment.

(** Writing [v] to a list of assignable mirrors succeeds, leaves [v] in
    each of them, and touches neither the internal state of any object nor
    a property that already holds [v]. *)
Lemma propagate_run (v : value) (ms : list (value * string)) :
  forall w,
    forallb (fun tk => assignableb w (fst tk) (snd tk)) ms = true ->
    exists w',
      for_each ms (fun tk => set_prop (fst tk) (snd tk) v) w = (Ok tt, w')
      /\ (forall t k, In (t, k) ms -> get_prop_in w' t k = Ok v)
      /\ (forall t k, get_prop_in w t k = Ok v -> get_prop_in w' t k = Ok v)
      /\ (forall l, o_slots (obj_at w' l) = o_slots (obj_at w l))
      /\ (forall t k, assignableb w t k = true -> assignableb w' t k = true).
Proof.
  induction ms as [|[t k] ms IH]; intros w Hms.
  - exists w. repeat split; auto. intros ? ? [].
  - cbn [forallb fst snd] in Hms. apply Bool.andb_true_iff in Hms as [Htk Hms].
    destruct t as [| |b|n|s|l]; try discriminate.
    pose proof (set_prop_run w l k v Htk) as Hset.
    pose proof (written_reads w l k v Htk) as Hread.
    pose proof (unwritten_reads w l k v Htk) as Hother.
    pose proof (written_slots w l k v Htk) as Hsl.
    pose proof (written_assignable w l k v Htk) as Has.
    set (w2 := mkWorld (<[l := written (obj_at w l) k v]> (heap w)) (debug w)) in *.
    assert (Hms2 : forallb (fun tk => assignableb w2 (fst tk) (snd tk)) ms = true).
    { rewrite forallb_forall in *. intros tk Hin. apply Has; auto. }
    destruct (IH w2 Hms2) as (w' & Hrun & Hall & Hkeep & Hslots & Hassign).
    exists w'. cbn [for_each fst snd]. unfold mbind, M_bind.
    rewrite Hset, Hrun.
    assert (Hkeep2 : forall t' k',
               get_prop_in w t' k' = Ok v -> get_prop_in w2 t' k' = Ok v).
    { intros t' k' Hget.
      destruct (String.eqb_spec k' k) as [->|Hk];
        [|rewrite Hother; auto].
      destruct t' as [| |b|n|s|l'];
        try (rewrite Hother; [assumption|left; discriminate]).
      destruct (Nat.eq_dec l' l) as [->|Hl]; [assumption|].
      rewrite Hother; [assumption|left; congruence]. }
    repeat split.
    + intros t' k' [[= <- <-]|Hin]; [|now apply Hall].
      now apply Hkeep.
    + intros t' k' Hget. apply Hkeep, Hkeep2, Hget.
    + intros l'. now rewrite Hslots.
    + intros t' k' Ha. now apply Hassign, Has.
Qed.

Section Slots.

Variables (w : world) (l : loc) (st st' : binding).
Hypothesis Hslots : o_slots (obj_at w l) = Some st.

Let w1 : world :=
  mkWorld (<[l := mkObject (o_class (obj_at w l)) (o_props (obj_at w l)) (Some st')]>
             (heap w)) (debug w).

(** An object with internal state is an object of the heap. *)
Lemma slots_lt : l < length (heap w).
Proof.
  destruct (Nat.lt_ge_cases l (length (heap w))) as [?|Hge]; [assumption|].
  unfold obj_at in Hslots. rewrite lookup_ge_None_2 in Hslots by assumption.
  discriminate.
Qed.

Lemma slots_of_run m : Binding.slots_of m (VObj l) w = (Ok (l, st), w).
Proof.
  unfold Binding.slots_of, gets, mbind, M_bind. now rewrite Hslots.
Qed.

Lemma put_slots_slots : o_slots (obj_at w1 l) = Some st'.
Proof.
  unfold obj_at, w1; cbn [heap].
  now rewrite list_lookup_insert_eq by apply slots_lt.
Qed.

Lemma put_slots_props l' : o_props (obj_at w1 l') = o_props (obj_at w l').
Proof.
  unfold obj_at, w1; cbn [heap]. destruct (Nat.eq_dec l' l) as [->|Hne].
  - now rewrite list_lookup_insert_eq by apply slots_lt.
  - now rewrite list_lookup_insert_ne by congruence.
Qed.

Lemma put_slots_reads t k : get_prop_in w1 t k = get_prop_in w t k.
Proof.
  destruct t; try reflexivity. cbn [get_prop_in]. now rewrite put_slots_props.
Qed.

Lemma put_slots_assignable t k : assignableb w1 t k = assignableb w t k.
Proof.
  destruct t; try reflexivity. cbn [assignableb].
  rewrite put_slots_props. unfold w1; cbn [heap]. now rewrite length_insert.
Qed.

End Slots.

(** C2.  Take a Binding whose registered mirrors can all be assigned
    (each target is an object of the heap whose property at the key is
    absent or writable, as it is when [addMasterBinding] has returned).  A
    write of [v] through the Binding returns normally, and in the world it
    returns the Binding holds [v], its list of mirrors is as before, and
    every registered [(target, key)] reads as [v]. *)
Theorem Binding_write_reaches_every_mirror
    (w : world) (l : loc) (st : binding) (v : value)
    (Hbinding : o_slots (obj_at w l) = Some st)
    (Hmirrors :
       forallb (fun tk => assignableb w (fst tk) (snd tk)) (b_masters st) = true) :
  exists w',
    run (Binding.set (VObj l) v) w = (Ok tt, w')
    /\ run (Binding.get (VObj l)) w' = (Ok v, w')
    /\ o_slots (obj_at w' l) = Some (mkBinding (b_twoWay st) v (b_masters st))
    /\ forall target key,
         In (target, key) (b_masters st) -> get_prop_in w' target key = Ok v.
Proof.
  set (st' := mkBinding (b_twoWay st) v (b_masters st)).
  pose proof (put_slots_slots w l st st' Hbinding) as Hput.
  pose proof (put_slots_assignable w l st st' Hbinding) as Hsame.
  set (w1 := mkWorld _ _) in *.
  destruct (propagate_run v (b_masters st) w1) as (w' & Hrun & Hall & _ & Hsl & _).
  { rewrite forallb_forall in *. intros tk Hin. rewrite Hsame.
    now apply Hmirrors. }
  assert (Hst' : o_slots (obj_at w' l) = Some st') by now rewrite Hsl.
  subst w1 st'. exists w'. unfold run, Binding.set, Binding.get.
  split; [|split; [|split]].
  - unfold mbind at 1, M_bind at 1. rewrite (slots_of_run w l st Hbinding).
    cbn iota beta. unfold mbind, M_bind, Binding.put_slots. now rewrite Hrun.
  - unfold mbind, M_bind. now rewrite (slots_of_run w' l _ Hst').
  - assumption.
  - assumption.
Qed.

Lemma Binding_write_reaches_every_mirror_witness :
  o_slots (obj_at mirrors_world 2)
  = Some (mkBinding true (VNum 1) [(VObj 0, "x"); (VObj 1, "y")])
  /\ forallb (fun tk => assignableb mirrors_world (fst tk) (snd tk))
       [(VObj 0, "x"); (VObj 1, "y")] = true
  /\ exists w',
      run (Binding.set (VObj 2) (VNum 5)) mirrors_world = (Ok tt, w')
      /\ run (Binding.get (VObj 2)) w' = (Ok (VNum 5), w')
      /\ o_slots (obj_at w' 2)
         = Some (mkBinding true (VNum 5) [(VObj 0, "x"); (VObj 1, "y")])
      /\ forall target key,
           In (target, key) [(VObj 0, "x"); (VObj 1, "y")] ->
           get_prop_in w' target key = Ok (VNum 5).
Proof.
  split; [reflexivity|]. split; [reflexivity|].
  apply (Binding_write_reaches_every_mirror mirrors_world 2
           (mkBinding true (VNum 1) [(VObj 0, "x"); (VObj 1, "y")]) (VNum 5));
    reflexivity.
Defined.

(** Registration: on an assignable target [addMasterBinding] returns, the
    target then reads as the value of the Binding, the pair is last in the
    list of mirrors, and every pair that could be assigned still can: the
    hypothesis of [Binding_write_reaches_every_mirror] is what registration
    leaves. *)
Lemma addMasterBinding_registers (w : world) (l : loc) (st : binding)
    (target : value) (key : string) :
  o_slots (obj_at w l) = Some st ->
  assignableb w target key = true ->
  exists w',
    run (Binding.addMasterBinding (VObj l) target key) w = (Ok tt, w')
    /\ get_prop_in w' target key = Ok (b_value st)
    /\ o_slots (obj_at w' l)
       = Some (mkBinding (b_twoWay st) (b_value st) (b_masters st ++ [(target, key)]))
    /\ (forall t k, assignableb w t k = true -> assignableb w' t k = true).
Proof.
  intros Hst Ha. destruct target as [| |b|n|s|lt]; try discriminate.
  pose proof (set_prop_run w lt key (b_value st) Ha) as Hset.
  pose proof (written_reads w lt key (b_value st) Ha) as Hread.
  pose proof (written_slots w lt key (b_value st) Ha l) as Hsl.
  pose proof (written_assignable w lt key (b_value st) Ha) as Has.
  set (w2 := mkWorld _ _) in *.
  rewrite Hst in Hsl.
  set (st' := mkBinding (b_twoWay st) (b_value st) (b_masters st ++ [(VObj lt, key)])).
  pose proof (put_slots_slots w2 l st st' Hsl) as Hput.
  pose proof (put_slots_reads w2 l st st' Hsl) as Hreads.
  pose proof (put_slots_assignable w2 l st st' Hsl) as Hsame.
  eexists. unfold run, Binding.addMasterBinding.
  split; [|split; [|split]].
  - unfold mbind at 1, M_bind at 1. rewrite (slots_of_run w l st Hst).
    cbn iota beta. unfold mbind, M_bind. rewrite Hset. reflexivity.
  - rewrite Hreads. exact Hread.
  - exact Hput.
  - intros t k Htk. rewrite Hsame. now apply Has.
Qed.

(** [bind] on a storage that holds only Bindings synchronises the target,
    and a later write through the Binding reaches it. *)
Lemma bind_synchronises_flat_storage (d : bool) :
  exists w',
    run Scenario.bind_flat_storage (mkWorld [] d) = (Ok (VObj 3), w')
    /\ get_prop_in w' (VObj 3) "x" = Ok (VNum 5)
    /\ o_slots (obj_at w' 0) = Some (mkBinding true (VNum 5) [(VObj 3, "x")]).
Proof.
  destruct d; eexists; (split; [vm_compute; reflexivity|]); split; reflexivity.
Qed.

(** ** The copy on examples *)

(** [{a: 1, f: function, u: undefined, n: {c: "s"}}] is copied without
    [f] and [u]; the copy shares no object with the original. *)
Example roundtrip_drops_functions :
  run (JSON_roundtrip (VObj 0))
      (mkWorld [mkObject CObject [("a", data_prop (VNum 1)); ("f", data_prop (VObj 1));
                                  ("u", data_prop VUndef); ("n", data_prop (VObj 2))] None;
                mkObject CFunction [] None;
                mkObject CObject [("c", data_prop (VStr "s"))] None] false)
  = (Ok (VObj 3),
     mkWorld [mkObject CObject [("a", data_prop (VNum 1)); ("f", data_prop (VObj 1));
                                ("u", data_prop VUndef); ("n", data_prop (VObj 2))] None;
              mkObject CFunction [] None;
              mkObject CObject [("c", data_prop (VStr "s"))] None;
              mkObject CObject [("a", data_prop (VNum 1)); ("n", data_prop (VObj 4))] None;
              mkObject CObject [("c", data_prop (VStr "s"))] None] false).
Proof. reflexivity. Qed.

(** An object that contains itself cannot be serialised. *)
Example roundtrip_rejects_cycles :
  fst (run (JSON_roundtrip (VObj 0))
           (mkWorld [mkObject CObject [("self", data_prop (VObj 0))] None] false))
  = Throw (TypeError CircularStructure).
Proof. reflexivity. Qed.

(** [JSON.parse(JSON.stringify(undefined))] is a syntax error. *)
Example roundtrip_of_undefined :
  fst (run (JSON_roundtrip VUndef) (mkWorld [] false)) = Throw SyntaxError.
Proof. reflexivity. Qed.

(** ** The constructor body only allocates

    [super()] never returns, so the body of the constructor is not
    reached.  Were it reached, on an instance as the base constructor
    leaves it, it would make the copy and stop at the first key, and the
    objects that existed before would still be as they were. *)

Lemma keeps_trans h w w' : keeps h w -> keeps (heap w) w' -> keeps h w'.
Proof.
  intros [t Ht] [t' Ht']. exists (t ++ t'). rewrite Ht', Ht. now rewrite app_assoc.
Qed.

Lemma keeps_refl w : keeps (heap w) w.
Proof. exists []. now rewrite app_nil_r. Qed.

Lemma update_props_fresh h l ps w :
  length h <= l -> keeps h w -> keeps h (snd (update_props l ps w)).
Proof.
  intros Hl [t Ht]. unfold update_props; cbn [snd heap]. rewrite Ht.
  rewrite insert_app_r_alt by assumption. eexists; reflexivity.
Qed.

Lemma set_prop_fresh h target k x w :
  (forall l, target = VObj l -> length h <= l) ->
  keeps h w -> keeps h (snd (set_prop target k x w)).
Proof.
  intros Hfresh Hk. destruct target as [| |b|n|s|l]; try exact Hk.
  specialize (Hfresh l eq_refl).
  unfold set_prop, gets, mbind, M_bind.
  destruct (assoc_get k (o_props (obj_at w l))) as [p|];
    [destruct (p_writable p); [|exact Hk]|]; now apply update_props_fresh.
Qed.

Lemma parse_keeps j : forall h w, keeps h w -> keeps h (snd (parse j w)).
Proof.
  induction j as [| | | |fs IH] using json_nested_ind; intros h w Hk;
    try exact Hk.
  cbn [parse]. unfold object_literal, alloc, mbind, M_bind. cbn [map].
  assert (Hfresh : forall l, VObj (length (heap w)) = VObj l -> length h <= l).
  { intros l [= <-]. destruct Hk as [t ->]. rewrite length_app. lia. }
  assert (Hk1 : keeps h (mkWorld (heap w ++ [mkObject CObject [] None]) (debug w))).
  { destruct Hk as [t Ht]. exists (t ++ [mkObject CObject [] None]). cbn [heap].
    rewrite Ht. now rewrite app_assoc. }
  revert Hfresh Hk1. generalize (VObj (length (heap w))).
  generalize (mkWorld (heap w ++ [mkObject CObject [] None]) (debug w)).
  clear w Hk.
  induction IH as [|[k j] r Hj _ IHr]; intros w1 o Hfresh Hk1; cbn [parse_fields].
  - exact Hk1.
  - unfold mbind, M_bind. specialize (Hj h w1 Hk1). cbn [snd] in Hj.
    destruct (parse j w1) as [[v| |] w2]; try exact Hj.
    pose proof (set_prop_fresh h o k v w2 Hfresh Hj) as Hs.
    destruct (set_prop o k v w2) as [[[]| |] w3]; try exact Hs.
    specialize (IHr w3 o Hfresh Hs).
    destruct (parse_fields parse o r w3) as [[[]| |] w4]; exact IHr.
Qed.

Lemma JSON_roundtrip_keeps v h w : keeps h w -> keeps h (snd (JSON_roundtrip v w)).
Proof.
  intros Hk. unfold JSON_roundtrip, gets, mbind, M_bind.
  destruct (stringify _ w [] v) as [[j|]| |]; try exact Hk.
  now apply parse_keeps.
Qed.

Lemma SimpleBound_new_keeps fuel obj w :
  keeps (heap w) (snd (SimpleBound.new fuel obj w))
  /\ forall v, fst (SimpleBound.new fuel obj w) <> Ok v.
Proof.
  destruct w as [h d]. destruct fuel as [|fuel].
  - split; [apply keeps_refl | discriminate].
  - rewrite SimpleBound_new_run. split; [|discriminate].
    eexists. reflexivity.
Qed.

Lemma keeps_get_prop h w v k :
  keeps h w -> value_okb h v = true ->
  forall d, get_prop_in w v k = get_prop_in (mkWorld h d) v k.
Proof.
  intros [t Ht] Hv d. destruct w as [hw dw]. cbn [heap] in Ht. subst hw.
  now apply get_prop_in_old.
Qed.

(** With [this.bound] undefined the body stops at its first key, and all
    it has done by then is allocate. *)
Lemma constructor_body_only_allocates fuel this obj w :
  value_okb (heap w) this = true ->
  get_prop_in w this "bound" = Ok VUndef ->
  keeps (heap w) (snd (SimpleBound.constructor_body (SimpleBound.new fuel) this obj w)).
Proof.
  intros Hthis Hbound. unfold SimpleBound.constructor_body.
  unfold mbind at 1, M_bind at 1.
  pose proof (JSON_roundtrip_keeps obj (heap w) w (keeps_refl w)) as Hk1.
  destruct (JSON_roundtrip obj w) as [[original| |] w1]; cbn [snd] in Hk1;
    try exact Hk1.
  unfold mbind at 1, M_bind at 1, for_in_keys at 1, gets at 1.
  match goal with |- context [for_each ?ks _] => destruct ks as [|key rest] end;
    [exact Hk1|].
  cbn [for_each]. unfold mbind at 1, M_bind at 1.
  unfold mbind at 1, M_bind at 1, get_prop at 1.
  destruct (get_prop_in w1 original key) as [x| |]; try exact Hk1.
  unfold mbind at 1, M_bind at 1, typeof at 1, gets at 1.
  destruct (String.eqb (typeof_in w1 x) "object").
  - unfold mbind at 1, M_bind at 1.
    destruct (SimpleBound_new_keeps fuel x w1) as [Hk2 Hno].
    destruct (SimpleBound.new fuel x w1) as [[v| |] w2]; cbn [fst snd] in *;
      try (eapply keeps_trans; eassumption).
    now destruct (Hno v).
  - unfold Binding.new, alloc. unfold mbind at 1, M_bind at 1.
    set (w2 := mkWorld (heap w1 ++ _) (debug w1)).
    assert (Hk2 : keeps (heap w) w2).
    { destruct Hk1 as [t Ht]. eexists. unfold w2; cbn [heap]. rewrite Ht.
      rewrite <- app_assoc. reflexivity. }
    unfold mbind at 1, M_bind at 1, get_prop at 1.
    rewrite (keeps_get_prop (heap w) w2 this "bound" Hk2 Hthis (debug w)).
    destruct w as [h d]. cbn [heap debug] in *. rewrite Hbound.
    unfold Binding.addMasterBinding.
    unfold mbind at 1, M_bind at 1. unfold mbind at 1, M_bind at 1.
    destruct (Binding.slots_of _ _ w2) as [[[l st]| |] w3] eqn:Es.
    all: assert (w3 = w2) as -> by
        (revert Es; unfold Binding.slots_of, gets, mbind, M_bind, throw;
         destruct (o_slots _); now intros [= ]).
    all: exact Hk2.
Qed.

(** * Further properties

    What the code of the two classes shows beyond the claims above. *)

Ltac unfold_checks :=
  unfold checks_in, isBound_in, typeof_in, instanceof_BaseBound_in, class_of,
    constructed, instance_object, back_reference_object, get_prop_in.

Lemma mbind_run {A B} (m : M A) (f : A -> M B) w :
  (m ≫= f) w
  = match m w with
    | (Ok a, w') => f a w'
    | (Throw e, w') => (Throw e, w')
    | (OutOfFuel, w') => (OutOfFuel, w')
    end.
Proof. reflexivity. Qed.

(** ** The BaseBound constructor *)

Lemma new_returns h d proto plugins b w1 :
  BaseBound.new proto plugins (mkWorld h d) = (Ok b, w1) ->
  b = VObj (length h) /\ w1 = mkWorld (constructed CBaseBound plugins h) d.
Proof.
  rewrite BaseBound_new_run. destruct (checks_in _ proto); intros [= <- <-].
  split; reflexivity.
Qed.

Lemma checks_in_old h t d proto :
  heap_closedb h = true -> value_okb h proto = true ->
  checks_in (mkWorld (h ++ t) d) proto = checks_in (mkWorld h d) proto.
Proof.
  intros Hc Hp. unfold checks_in. cbn [debug].
  now rewrite (typeof_in_old h t d d), (instanceof_in_old h t d d),
    (isBound_in_old h t d d).
Qed.

(** X1.  Whatever the prototype, and whether a check rejects it or not, a
    constructor call leaves exactly three new objects and touches nothing
    else: the instance holding [plugins], [storage] and [boundObject], the
    empty storage, and a boundObject whose one property is [__bound__].  No
    key of the prototype is copied, a rejected construction is not undone, and
    when the call returns it returns the new instance. *)
Theorem construction_leaves_three_objects (w : world) (proto plugins : value) :
  snd (run (BaseBound.new proto plugins) w)
  = mkWorld (heap w ++ [instance_object CBaseBound plugins (length (heap w));
                        mkObject CObject [] None;
                        back_reference_object (length (heap w))])
            (debug w)
  /\ (forall v, fst (run (BaseBound.new proto plugins) w) = Ok v ->
        v = VObj (length (heap w)))
  /\ fst (run (BaseBound.new proto plugins) w) <> OutOfFuel.
Proof.
  destruct w as [h d]. unfold run. rewrite BaseBound_new_run. cbn [fst snd heap debug].
  split; [reflexivity|].
  destruct (checks_in _ proto) as [[]|e|] eqn:E.
  - split; [now intros v [= <-] | discriminate].
  - split; discriminate.
  - exfalso. revert E. unfold checks_in.
    destruct (_ && _); [discriminate|]. destruct (_ && _); [discriminate|].
    pose proof (isBound_in_fuel (mkWorld (constructed CBaseBound plugins h) d) proto) as H.
    destruct (isBound_in _ proto) as [r| |]; try discriminate; try contradiction.
    destruct (truthy r); discriminate.
Qed.

(** X2.  The prototype does not become bound: on a closed heap a
    constructor call leaves every object that existed before as it was, the
    prototype reads as before at every key, and [isBound(proto)] answers as
    before. *)
Theorem construction_leaves_prototype (w : world) (proto plugins : value)
    (Hclosed : heap_closedb (heap w) = true)
    (Hproto : value_okb (heap w) proto = true) :
  let w' := snd (run (BaseBound.new proto plugins) w) in
  (forall l o, heap w !! l = Some o -> heap w' !! l = Some o)
  /\ (forall k, get_prop_in w' proto k = get_prop_in w proto k)
  /\ fst (run (BaseBound.isBound proto) w') = fst (run (BaseBound.isBound proto) w).
Proof.
  destruct w as [h d]. cbn [heap] in *. unfold run.
  rewrite BaseBound_new_run. cbn [snd]. unfold constructed.
  rewrite !isBound_run. cbn [fst].
  repeat split.
  - intros l o Hl. cbn [heap]. rewrite lookup_app_l; [assumption|].
    eapply lookup_lt_Some; eassumption.
  - intros k. now apply get_prop_in_old.
  - now apply isBound_in_old.
Qed.

Lemma construction_leaves_prototype_witness :
  heap_closedb (heap plain_world) = true
  /\ value_okb (heap plain_world) (VObj 0) = true
  /\ fst (run (BaseBound.isBound (VObj 0))
            (snd (run (BaseBound.new (VObj 0) VUndef) plain_world)))
     = fst (run (BaseBound.isBound (VObj 0)) plain_world).
Proof.
  split; [reflexivity|]. split; [reflexivity|].
  apply (construction_leaves_prototype plain_world (VObj 0) VUndef); reflexivity.
Defined.

(** X3.  A prototype that was accepted once is accepted again: after a
    construction from [proto] has returned, a second construction from the
    same [proto] returns a new instance. *)
Theorem prototype_can_be_reused (w : world) (proto plugins plugins' : value)
    (b : value) (w1 : world)
    (Hclosed : heap_closedb (heap w) = true)
    (Hproto : value_okb (heap w) proto = true)
    (Hnew : run (BaseBound.new proto plugins) w = (Ok b, w1)) :
  fst (run (BaseBound.new proto plugins') w1) = Ok (VObj (length (heap w1))).
Proof.
  destruct w as [h d]. cbn [heap] in *. unfold run in *.
  rewrite BaseBound_new_run in Hnew.
  destruct (checks_in _ proto) as [[]| |] eqn:E; try discriminate.
  injection Hnew as <- <-. rewrite BaseBound_new_run. cbn [fst heap].
  unfold constructed in *. rewrite <- app_assoc.
  rewrite checks_in_old in * by assumption. now rewrite E.
Qed.

Lemma prototype_can_be_reused_witness :
  heap_closedb (heap plain_world) = true
  /\ value_okb (heap plain_world) (VObj 0) = true
  /\ run (BaseBound.new (VObj 0) VUndef) plain_world = (Ok (VObj 1), plain_bound_world)
  /\ fst (run (BaseBound.new (VObj 0) VNull) plain_bound_world)
     = Ok (VObj (length (heap plain_bound_world))).
Proof.
  split; [reflexivity|]. split; [reflexivity|]. split; [reflexivity|].
  apply (prototype_can_be_reused plain_world (VObj 0) VUndef VNull (VObj 1));
    reflexivity.
Defined.

(** X4.  The boundObject of an instance is never accepted as a prototype:
    after a construction has returned, a construction from its boundObject
    raises "Cannot rebind a bound object." whether [debug] is enabled or
    not. *)
Theorem boundObject_is_never_rebound (w : world) (proto plugins : value)
    (b : value) (w1 : world)
    (Hnew : run (BaseBound.new proto plugins) w = (Ok b, w1)) :
  exists bo,
    get_prop_in w1 b "boundObject" = Ok bo
    /\ forall (d' : bool) (plugins' : value),
         fst (run (BaseBound.new bo plugins') (mkWorld (heap w1) d'))
         = Throw (BoundError BaseBound.msg_rebind).
Proof.
  destruct w as [h d]. unfold run in *.
  apply new_returns in Hnew as [-> ->].
  exists (VObj (length h + 2)). split.
  - unfold_checks. rewrite obj_at_fresh0. reflexivity.
  - intros d' plugins'. cbn [heap]. rewrite BaseBound_new_run. cbn [fst].
    unfold_checks. cbn [debug]. sym_run. destruct d'; sym_run; reflexivity.
Qed.

Lemma boundObject_is_never_rebound_witness :
  run (BaseBound.new (VObj 0) VUndef) plain_world = (Ok (VObj 1), plain_bound_world)
  /\ exists bo,
      get_prop_in plain_bound_world (VObj 1) "boundObject" = Ok bo
      /\ forall (d' : bool) (plugins' : value),
           fst (run (BaseBound.new bo plugins') (mkWorld (heap plain_bound_world) d'))
           = Throw (BoundError BaseBound.msg_rebind).
Proof.
  split; [reflexivity|].
  apply (boundObject_is_never_rebound plain_world (VObj 0) VUndef (VObj 1)).
  reflexivity.
Defined.

(** X5.  An instance is not itself a bound object: [isBound(instance)] is
    false, so a construction from the instance is rejected only by the
    [instanceof] test, that is when [debug] is enabled; with [debug]
    disabled it returns a new instance. *)
Theorem instance_is_not_bound (w : world) (proto plugins : value)
    (b : value) (w1 : world)
    (Hnew : run (BaseBound.new proto plugins) w = (Ok b, w1)) :
  run (BaseBound.isBound b) w1 = (Ok (VBool false), w1)
  /\ forall (d' : bool) (plugins' : value),
       fst (run (BaseBound.new b plugins') (mkWorld (heap w1) d'))
       = if d' then Throw (BoundError BaseBound.msg_rebind)
         else Ok (VObj (length (heap w1))).
Proof.
  destruct w as [h d]. unfold run in *.
  apply new_returns in Hnew as [-> ->]. split.
  - rewrite isBound_run. unfold_checks. rewrite obj_at_fresh0. reflexivity.
  - intros d' plugins'. cbn [heap]. rewrite BaseBound_new_run. cbn [fst].
    unfold_checks. cbn [debug]. sym_run. destruct d'; sym_run; reflexivity.
Qed.

Lemma instance_is_not_bound_witness :
  run (BaseBound.new (VObj 0) VUndef) plain_world = (Ok (VObj 1), plain_bound_world)
  /\ run (BaseBound.isBound (VObj 1)) plain_bound_world
     = (Ok (VBool false), plain_bound_world).
Proof.
  split; [reflexivity|].
  apply (instance_is_not_bound plain_world (VObj 0) VUndef (VObj 1)).
  reflexivity.
Defined.

(** X6.  [null] passes the object check, since [typeof null] is "object",
    and then makes the rebind check raise a TypeError, whether [debug] is
    enabled or not; [undefined] raises the BoundError for non-objects when
    [debug] is enabled and the same TypeError when it is not. *)
Theorem nullish_prototypes (w : world) (plugins : value) :
  fst (run (BaseBound.new VNull plugins) w)
  = Throw (TypeError (ReadOfNullish "__bound__"))
  /\ fst (run (BaseBound.new VUndef plugins) w)
     = Throw (if debug w then BoundError BaseBound.msg_only_objects
              else TypeError (ReadOfNullish "__bound__")).
Proof.
  destruct w as [h d]. unfold run. rewrite !BaseBound_new_run. cbn [fst debug].
  split; destruct d; reflexivity.
Qed.

Lemma string_of_nat_not_bound i : String.eqb "__bound__" (string_of_nat i) = false.
Proof.
  unfold string_of_nat. destruct (Nat.to_uint i); reflexivity.
Qed.

Lemma string_index_bound s : forall i, string_index s i "__bound__" = None.
Proof.
  induction s as [|c r IH]; intros i; cbn [string_index]; [reflexivity|].
  now rewrite string_of_nat_not_bound.
Qed.

(** X7.  A boolean, number or string prototype is rejected with the
    BoundError for non-objects when [debug] is enabled, and accepted when
    it is disabled: the construction then returns a new instance. *)
Theorem primitive_prototypes (w : world) (plugins : value) :
  let outcome_by_debug :=
    if debug w then Throw (BoundError BaseBound.msg_only_objects)
    else Ok (VObj (length (heap w))) in
  (forall b, fst (run (BaseBound.new (VBool b) plugins) w) = outcome_by_debug)
  /\ (forall n, fst (run (BaseBound.new (VNum n) plugins) w) = outcome_by_debug)
  /\ (forall s, fst (run (BaseBound.new (VStr s) plugins) w) = outcome_by_debug).
Proof.
  destruct w as [h d]. unfold run. cbn [heap debug].
  repeat split; intros; rewrite BaseBound_new_run; cbn [fst];
    unfold checks_in, isBound_in; cbn [debug typeof_in get_prop_in];
    destruct d; try reflexivity.
  cbn. now rewrite string_index_bound.
Qed.

(** ** isBound *)

(** X8.  [isBound] is false for every boolean, number and string, and
    leaves the world as it is. *)
Theorem isBound_of_primitives (w : world) :
  (forall b, run (BaseBound.isBound (VBool b)) w = (Ok (VBool false), w))
  /\ (forall n, run (BaseBound.isBound (VNum n)) w = (Ok (VBool false), w))
  /\ (forall s, run (BaseBound.isBound (VStr s)) w = (Ok (VBool false), w)).
Proof.
  unfold run. repeat split; intros; rewrite isBound_run; unfold isBound_in;
    cbn [get_prop_in]; try reflexivity.
  cbn. now rewrite string_index_bound.
Qed.

(** ** bind *)

Lemma put_slots_other w l st' l' :
  l' <> l ->
  obj_at (mkWorld (<[l := mkObject (o_class (obj_at w l)) (o_props (obj_at w l)) (Some st')]>
                     (heap w)) (debug w)) l'
  = obj_at w l'.
Proof.
  intros Hne. unfold obj_at; cbn [heap]. now rewrite list_lookup_insert_ne by congruence.
Qed.

Lemma addMasterBinding_effect w lb st lt k :
  o_slots (obj_at w lb) = Some st ->
  assignableb w (VObj lt) k = true ->
  exists w',
    Binding.addMasterBinding (VObj lb) (VObj lt) k w = (Ok tt, w')
    /\ length (heap w') = length (heap w)
    /\ (forall l, l <> lt -> o_props (obj_at w' l) = o_props (obj_at w l))
    /\ (forall l, l <> lb -> o_slots (obj_at w' l) = o_slots (obj_at w l))
    /\ o_slots (obj_at w' lb)
       = Some (mkBinding (b_twoWay st) (b_value st) (b_masters st ++ [(VObj lt, k)]))
    /\ get_prop_in w' (VObj lt) k = Ok (b_value st)
    /\ (forall k', k' <> k -> get_prop_in w' (VObj lt) k' = get_prop_in w (VObj lt) k')
    /\ (forall t k', assignableb w t k' = true -> assignableb w' t k' = true).
Proof.
  intros Hst Ha.
  pose proof (set_prop_run w lt k (b_value st) Ha) as Hset.
  pose proof (written_reads w lt k (b_value st) Ha) as Hread.
  pose proof (unwritten_reads w lt k (b_value st) Ha) as Hother.
  pose proof (obj_at_unwritten w lt k (b_value st)) as Hobj.
  pose proof (written_slots w lt k (b_value st) Ha) as Hsl.
  pose proof (written_assignable w lt k (b_value st) Ha) as Has.
  pose proof (written_length w lt k (b_value st)) as Hlen.
  set (w2 := mkWorld _ _) in *.
  assert (Hst2 : o_slots (obj_at w2 lb) = Some st) by now rewrite Hsl.
  set (st' := mkBinding (b_twoWay st) (b_value st) (b_masters st ++ [(VObj lt, k)])).
  pose proof (put_slots_slots w2 lb st st' Hst2) as Hput.
  pose proof (put_slots_props w2 lb st st' Hst2) as Hprops.
  pose proof (put_slots_reads w2 lb st st' Hst2) as Hreads.
  pose proof (put_slots_assignable w2 lb st st' Hst2) as Hsame.
  pose proof (put_slots_other w2 lb st') as Hoth.
  eexists. unfold Binding.addMasterBinding.
  split; [|split; [|split; [|split; [|split; [|split; [|split]]]]]].
  - unfold mbind at 1, M_bind at 1. rewrite (slots_of_run w lb st Hst).
    cbn iota beta. unfold mbind, M_bind. rewrite Hset. reflexivity.
  - cbn [heap]. rewrite length_insert. exact Hlen.
  - intros l Hl. rewrite Hprops. now rewrite Hobj.
  - intros l Hl. rewrite Hoth by assumption. apply Hsl.
  - exact Hput.
  - rewrite Hreads. exact Hread.
  - intros k' Hk'. rewrite Hreads. apply Hother. now right.
  - intros t k' Htk. rewrite Hsame. now apply Has.
Qed.

Lemma slot_grown_refl o : slot_grown o o.
Proof.
  destruct o as [s|]; cbn; [|exact I].
  repeat split. exists []. now rewrite app_nil_r.
Qed.

Lemma bind_inv_refl lt w : bind_inv lt w w.
Proof. repeat split; auto using slot_grown_refl. Qed.


Section BindLoop.

Variables (lthis ls lt : loc) (w0 : world).
Hypothesis Hthis : lt <> lthis.
Hypothesis Hls : lt <> ls.
Hypothesis Hstorage : get_prop_in w0 (VObj lthis) "storage" = Ok (VObj ls).

Lemma inv_reads w l k : bind_inv lt w0 w -> l <> lt ->
  get_prop_in w (VObj l) k = get_prop_in w0 (VObj l) k.
Proof. intros (Hp & _) Hl. cbn [get_prop_in]. now rewrite Hp. Qed.

(** One key at which the storage holds a Binding. *)
Lemma bind_step_ok w k :
  bind_inv lt w0 w ->
  stored_bindingb w0 (VObj ls) k && assignableb w0 (VObj lt) k = true ->
  exists w',
    bind_step (VObj lthis) (VObj lt) k w = (Ok tt, w')
    /\ bind_inv lt w0 w'
    /\ mirrored w0 w' (VObj ls) (VObj lt) k
    /\ (forall k', mirrored w0 w (VObj ls) (VObj lt) k' ->
                   mirrored w0 w' (VObj ls) (VObj lt) k').
Proof.
  intros Hinv [Hsb Hasg]%Bool.andb_true_iff.
  pose proof Hinv as (Hprops & Hslots & Hassign).
  unfold stored_bindingb in Hsb.
  destruct (get_prop_in w0 (VObj ls) k) as [[| | | | |lb]| |] eqn:Eget; try discriminate.
  destruct (o_slots (obj_at w0 lb)) as [st0|] eqn:Est0; try discriminate.
  pose proof (Hslots lb) as Hg. rewrite Est0 in Hg.
  destruct (o_slots (obj_at w lb)) as [s|] eqn:Es; [|contradiction].
  destruct Hg as (Hval & Hflag & extra & Hextra).
  destruct (addMasterBinding_effect w lb s lt k Es (Hassign k Hasg))
    as (w' & Hrun & _ & Hp' & Hs' & Hlb' & Hread & Hkeep & Has').
  exists w'. split; [|split; [|split]].
  - unfold bind_step, mbind, M_bind, get_prop.
    rewrite (inv_reads w lthis "storage" Hinv) by congruence. rewrite Hstorage.
    rewrite (inv_reads w ls k Hinv) by congruence. rewrite Eget. exact Hrun.
  - split; [|split].
    + intros l Hl. rewrite Hp' by assumption. now apply Hprops.
    + intros l. destruct (Nat.eq_dec l lb) as [->|Hne].
      * rewrite Est0, Hlb'. cbn. repeat split; try assumption.
        exists (extra ++ [(VObj lt, k)]). rewrite Hextra. now rewrite app_assoc.
      * rewrite Hs' by assumption. apply Hslots.
    + intros k' Hk'. apply Has'. now apply Hassign.
  - exists lb, st0, (mkBinding (b_twoWay s) (b_value s) (b_masters s ++ [(VObj lt, k)])).
    repeat split; try assumption.
    + apply in_or_app. right. now left.
    + rewrite Hread. now rewrite Hval.
  - intros k' (lb' & st0' & s' & Eget' & Est0' & Es' & Hval' & Hin' & Hread').
    destruct (Nat.eq_dec lb' lb) as [->|Hne].
    + exists lb, st0', (mkBinding (b_twoWay s) (b_value s) (b_masters s ++ [(VObj lt, k)])).
      rewrite Es in Es'. injection Es' as <-.
      repeat split; try assumption.
      * apply in_or_app. now left.
      * destruct (String.eqb_spec k' k) as [->|Hk].
        -- rewrite Hread. rewrite Est0 in Est0'. injection Est0' as <-. now rewrite Hval.
        -- now rewrite Hkeep.
    + exists lb', st0', s'. rewrite Hs' by assumption.
      repeat split; try assumption.
      destruct (String.eqb_spec k' k) as [->|Hk]; [|now rewrite Hkeep].
      rewrite Eget in Eget'. congruence.
Qed.

Lemma bind_loop ks : forall w,
  bind_inv lt w0 w ->
  forallb (fun k => stored_bindingb w0 (VObj ls) k && assignableb w0 (VObj lt) k) ks = true ->
  exists w',
    for_each ks (bind_step (VObj lthis) (VObj lt)) w = (Ok tt, w')
    /\ bind_inv lt w0 w'
    /\ (forall k, In k ks -> mirrored w0 w' (VObj ls) (VObj lt) k)
    /\ (forall k, mirrored w0 w (VObj ls) (VObj lt) k ->
                  mirrored w0 w' (VObj ls) (VObj lt) k).
Proof.
  induction ks as [|k r IH]; intros w Hinv Hall.
  - exists w. split; [reflexivity|]. split; [assumption|].
    split; [intros ? []|auto].
  - cbn [forallb] in Hall. apply Bool.andb_true_iff in Hall as [Hk Hr].
    destruct (bind_step_ok w k Hinv Hk) as (w1 & Hrun1 & Hinv1 & Hm1 & Hkeep1).
    destruct (IH w1 Hinv1 Hr) as (w' & Hrun & Hinv' & Hall' & Hkeep').
    exists w'. cbn [for_each]. unfold mbind, M_bind. rewrite Hrun1.
    split; [exact Hrun|]. split; [exact Hinv'|]. split.
    + intros k' [<-|Hin]; [now apply Hkeep'|now apply Hall'].
    + intros k' Hm. now apply Hkeep', Hkeep1.
Qed.


End BindLoop.

Lemma bind_unfold this obj w :
  SimpleBound.bind this obj w
  = match get_prop_in w this "storage" with
    | Ok storage =>
        match for_each (keys_in w storage) (bind_step this obj) w with
        | (Ok _, w') => (Ok VUndef, w')
        | (Throw e, w') => (Throw e, w')
        | (OutOfFuel, w') => (OutOfFuel, w')
        end
    | Throw e => (Throw e, w)
    | OutOfFuel => (OutOfFuel, w)
    end.
Proof.
  unfold SimpleBound.bind, mbind, M_bind, get_prop, for_in_keys, gets.
  destruct (get_prop_in w this "storage"); reflexivity.
Qed.

Lemma bind_ready_parts w this target ks :
  bind_readyb_on w this target ks = true ->
  exists lthis ls lt,
    this = VObj lthis /\ target = VObj lt
    /\ get_prop_in w this "storage" = Ok (VObj ls)
    /\ lt <> lthis /\ lt <> ls
    /\ forallb (fun k => stored_bindingb w (VObj ls) k && assignableb w (VObj lt) k) ks
       = true.
Proof.
  unfold bind_readyb_on, storage_of.
  destruct this as [| | | | |lthis]; try discriminate.
  destruct (get_prop_in w (VObj lthis) "storage") as [[| | | | |ls]| |] eqn:E;
    try discriminate.
  destruct target as [| | | | |lt]; try discriminate.
  intros [[H1 H2]%Bool.andb_true_iff H3]%Bool.andb_true_iff.
  apply Bool.negb_true_iff, Nat.eqb_neq in H1, H2.
  exists lthis, ls, lt. repeat split; assumption.
Qed.

(** X9.  When the storage of the instance holds a Binding at every
    enumerable key and the target is an object, other than the instance and
    its storage, that can be assigned at those keys, [bind(target)] returns
    [undefined]; afterwards, at every key, the Binding has kept its value,
    lists [(target, key)] among its mirrors, and [target[key]] reads as that
    value.  No object but the target has a property changed. *)
Theorem bind_registers_every_key (w : world) (this target : value)
    (Hready : bind_readyb_on w this target (keys_in w (storage_of w this)) = true) :
  exists w',
    run (SimpleBound.bind this target) w = (Ok VUndef, w')
    /\ (forall k, In k (keys_in w (storage_of w this)) ->
                  mirrored w w' (storage_of w this) target k)
    /\ (forall l, VObj l <> target -> o_props (obj_at w' l) = o_props (obj_at w l)).
Proof.
  destruct (bind_ready_parts _ _ _ _ Hready)
    as (lthis & ls & lt & -> & -> & Hst & Hthis & Hls & Hall).
  unfold storage_of in *. rewrite Hst in *.
  destruct (bind_loop lthis ls lt w Hthis Hls Hst _ w (bind_inv_refl lt w) Hall)
    as (w' & Hrun & (Hprops & _) & Hmirrored & _).
  exists w'. unfold run. rewrite bind_unfold, Hst, Hrun.
  split; [reflexivity|]. split; [assumption|].
  intros l Hl. apply Hprops. congruence.
Qed.

Lemma bind_registers_every_key_witness :
  bind_readyb_on flat_world (VObj 3) (VObj 4)
    (keys_in flat_world (storage_of flat_world (VObj 3))) = true
  /\ exists w',
      run (SimpleBound.bind (VObj 3) (VObj 4)) flat_world = (Ok VUndef, w')
      /\ (forall k, In k (keys_in flat_world (storage_of flat_world (VObj 3))) ->
                    mirrored flat_world w' (storage_of flat_world (VObj 3)) (VObj 4) k)
      /\ (forall l, VObj l <> VObj 4 ->
                    o_props (obj_at w' l) = o_props (obj_at flat_world l)).
Proof.
  split; [reflexivity|].
  apply (bind_registers_every_key flat_world (VObj 3) (VObj 4)). reflexivity.
Defined.



(** X11.  On an instance whose storage has no enumerable key (an empty
    storage, or no storage at all) [bind] returns [undefined] and changes
    nothing. *)
Theorem bind_without_keys (w : world) (this target : value)
    (Hthis : nullish this = false)
    (Hkeys : keys_in w (storage_of w this) = []) :
  run (SimpleBound.bind this target) w = (Ok VUndef, w).
Proof.
  unfold run. rewrite bind_unfold. unfold storage_of in Hkeys.
  destruct (get_prop_in_cases w this "storage") as [(x & E & _)|[_ [->| ->]]];
    try discriminate.
  rewrite E in *. now rewrite Hkeys.
Qed.

Lemma bind_without_keys_witness :
  nullish (VObj 1) = false
  /\ keys_in plain_bound_world (storage_of plain_bound_world (VObj 1)) = []
  /\ run (SimpleBound.bind (VObj 1) (VObj 0)) plain_bound_world
     = (Ok VUndef, plain_bound_world).
Proof.
  split; [reflexivity|]. split; [reflexivity|].
  apply (bind_without_keys plain_bound_world (VObj 1) (VObj 0)); reflexivity.
Defined.

(** X12.  When [bind] returns it returns [undefined], not the instance,
    so a chained call [b.bind(t1).bind(t2)] raises a TypeError at the second
    [bind]. *)
Theorem bind_cannot_be_chained (w : world) (this t1 t2 r : value) (w' : world)
    (Hbind : run (SimpleBound.bind this t1) w = (Ok r, w')) :
  r = VUndef
  /\ run (SimpleBound.bind r t2) w' = (Throw (TypeError (ReadOfNullish "storage")), w').
Proof.
  unfold run in *. rewrite bind_unfold in Hbind.
  destruct (get_prop_in w this "storage") as [storage| |]; try discriminate.
  destruct (for_each _ _ w) as [[[]| |] w1]; try discriminate.
  injection Hbind as <- <-. split; reflexivity.
Qed.

Lemma bind_cannot_be_chained_witness :
  run (SimpleBound.bind (VObj 1) (VObj 0)) plain_bound_world
  = (Ok VUndef, plain_bound_world)
  /\ run (SimpleBound.bind VUndef (VObj 0)) plain_bound_world
     = (Throw (TypeError (ReadOfNullish "storage")), plain_bound_world).
Proof.
  split; [reflexivity|].
  apply (bind_cannot_be_chained plain_bound_world (VObj 1) (VObj 0) (VObj 0) VUndef
           plain_bound_world).
  reflexivity.
Defined.

(** ** The body of the SimpleBound constructor *)

(** X13.  On an instance without a [bound] field, as the base constructor
    leaves it, the statements after [super()] only allocate, never run out
    of fuel, and return normally exactly when the copy of [obj] succeeds and
    has no enumerable key: at the first key they raise. *)
Theorem constructor_body_stops_at_first_key
    (fuel : nat) (this obj : value) (w : world)
    (Hthis : value_okb (heap w) this = true)
    (Hbound : get_prop_in w this "bound" = Ok VUndef) :
  let r := run (SimpleBound.constructor_body (SimpleBound.new (S fuel)) this obj) w in
  keeps (heap w) (snd r)
  /\ fst r <> OutOfFuel
  /\ (fst r = Ok tt <->
      exists original w1,
        run (JSON_roundtrip obj) w = (Ok original, w1) /\ keys_in w1 original = []).
Proof.
  cbn zeta. unfold run. split.
  { now apply constructor_body_only_allocates. }
  unfold SimpleBound.constructor_body.
  rewrite (mbind_run (JSON_roundtrip obj)).
  pose proof (JSON_roundtrip_fuel obj w) as Hfuel.
  pose proof (JSON_roundtrip_keeps obj (heap w) w (keeps_refl w)) as Hk1.
  destruct (JSON_roundtrip obj w) as [[original| |] w1]; cbn [fst snd] in *.
  2: { split; [discriminate|]. split; [discriminate|].
       intros (? & ? & Heq & _). discriminate Heq. }
  2: { contradiction. }
  rewrite (mbind_run (for_in_keys original)). unfold for_in_keys, gets.
  change (match original with
          | VStr s => map string_of_nat (seq 0 (String.length s))
          | VObj l => enumerable_keys (o_props (obj_at w1 l))
          | _ => []
          end) with (keys_in w1 original).
  destruct (keys_in w1 original) as [|key rest] eqn:Ekeys.
  { cbn [for_each]. split; [discriminate|]. split; eauto. }
  assert (Hstop : forall o, fst (for_each (key :: rest)
     (fun key0 => x ← get_prop original key0; ty ← typeof x;
        if String.eqb ty "object" then
          bound ← SimpleBound.new (S fuel) x;
          this_bound ← get_prop this "bound";
          bound_bound ← get_prop bound "bound";
          set_prop this_bound key0 bound_bound;;
          this_storage ← get_prop this "storage";
          bound_storage ← get_prop bound "storage";
          set_prop this_storage key0 bound_storage
        else
          binding ← Binding.new true x;
          this_bound ← get_prop this "bound";
          Binding.addMasterBinding binding this_bound key0;;
          this_storage ← get_prop this "storage";
          set_prop this_storage key0 binding) w1) = o ->
     exists e, o = Throw e).
  { intros o <-. cbn [for_each]. unfold mbind at 1, M_bind at 1.
    unfold mbind at 1, M_bind at 1, get_prop at 1.
    destruct (get_prop_in w1 original key) as [x| |] eqn:Eget.
    2: { eauto. }
    2: { destruct original; cbn in Eget; try discriminate;
         [destruct (String.eqb key "length")|destruct (assoc_get _ _)]; discriminate. }
    unfold mbind at 1, M_bind at 1, typeof at 1, gets at 1.
    destruct (String.eqb (typeof_in w1 x) "object").
    - unfold mbind at 1, M_bind at 1.
      destruct w1 as [h1 d1]. rewrite SimpleBound_new_run. cbn. eauto.
    - unfold Binding.new, alloc. unfold mbind at 1, M_bind at 1.
      set (w2 := mkWorld (heap w1 ++ _) (debug w1)).
      assert (Hk2 : keeps (heap w) w2).
      { destruct Hk1 as [t Ht]. eexists. unfold w2; cbn [heap]. rewrite Ht.
        rewrite <- app_assoc. reflexivity. }
      unfold mbind at 1, M_bind at 1, get_prop at 1.
      rewrite (keeps_get_prop (heap w) w2 this "bound" Hk2 Hthis (debug w)).
      destruct w as [h d]. cbn [heap debug] in *. rewrite Hbound.
      unfold Binding.addMasterBinding.
      unfold mbind at 1, M_bind at 1. unfold mbind at 1, M_bind at 1.
      unfold Binding.slots_of, gets, mbind, M_bind.
      unfold w2 at 1. rewrite obj_at_fresh0. cbn. eauto. }
  match goal with |- context [for_each ?ks ?f w1] =>
    specialize (Hstop (fst (for_each ks f w1)) eq_refl);
    destruct (for_each ks f w1) as [o w3] end.
  cbn [fst] in *. destruct Hstop as [e ->].
  split; [discriminate|]. split; [discriminate|].
  intros (original' & w1' & [= <- <-] & Hk). congruence.
Qed.

Lemma constructor_body_stops_at_first_key_witness :
  value_okb (heap super_world) (VObj 1) = true
  /\ get_prop_in super_world (VObj 1) "bound" = Ok VUndef
  /\ fst (run (SimpleBound.constructor_body (SimpleBound.new 1) (VObj 1) (VObj 0))
            super_world) <> OutOfFuel.
Proof.
  split; [reflexivity|]. split; [reflexivity|].
  apply (constructor_body_stops_at_first_key 0 (VObj 1) (VObj 0) super_world);
    reflexivity.
Defined.



